(** * VM scheduler: a shallow embedding of [main.py]

    The cloud function of [main.py] discovers compute instances by label,
    decides per instance whether it still needs a power transition, and
    drives the compute control plane accordingly.  This development embeds
    [VMScheduler] and [process_scale_action] as state-passing functions over
    an abstract instances client, and proves the behavioural properties the
    design document states about them.

    Conventions.
    - Python [str] values are [string]s (ASCII text); a value that may be
      [None] is an [option].
    - [os.environ] and an instance's [labels] mapping are [gmap string string].
    - The result dictionaries keep the keys of the source as constructor and
      field names.
    - The compute client is a parameter: a state type with one transition per
      method.  An instance operation returns the value the method returns or
      the text [str(e)] of the exception it raises; a listing gives the
      instances its pager yields and the exception that ended it, if any. *)

From Stdlib Require Import Ascii String.
From stdpp Require Import base option list strings gmap fin_maps.

Local Open Scope string_scope.
Local Open Scope list_scope.

(** ** Python helpers on strings *)

Module Py.

(** Truthiness of an optional string: [None] and [''] are falsy. *)
Definition truthy (v : option string) : bool :=
  match v with
  | None => false
  | Some s => negb (String.eqb s "")
  end.

(** [a or b] on optional strings. *)
Definition or (a b : option string) : option string :=
  if truthy a then a else b.

(** [c in s] for a one-character needle. *)
Fixpoint contains (c : ascii) (s : string) : bool :=
  match s with
  | EmptyString => false
  | String d s' => if Ascii.eqb d c then true else contains c s'
  end.

(** [s.split(sep)] for a one-character separator: never the empty list. *)
Fixpoint split (sep : ascii) (s : string) : list string :=
  match s with
  | EmptyString => [EmptyString]
  | String c s' =>
      if Ascii.eqb c sep then EmptyString :: split sep s'
      else match split sep s' with
           | [] => [String c EmptyString]
           | w :: ws => String c w :: ws
           end
  end.

(** [s.split(sep, 1)] when [sep in s]: the text before and after the first
    separator. Without a separator the whole string is the first part. *)
Fixpoint split1 (sep : ascii) (s : string) : string * string :=
  match s with
  | EmptyString => (EmptyString, EmptyString)
  | String c s' =>
      if Ascii.eqb c sep then (EmptyString, s')
      else let '(a, b) := split1 sep s' in (String c a, b)
  end.

(** [str.isspace] on ASCII: TAB..CR, FS..US and the blank. *)
Definition isspace (c : ascii) : bool :=
  let n := nat_of_ascii c in
  (Nat.leb 9 n && Nat.leb n 13) || (Nat.leb 28 n && Nat.leb n 32).

Fixpoint lstrip (s : string) : string :=
  match s with
  | EmptyString => EmptyString
  | String c s' => if isspace c then lstrip s' else s
  end.

Fixpoint rstrip (s : string) : string :=
  match s with
  | EmptyString => EmptyString
  | String c s' =>
      match rstrip s' with
      | EmptyString => if isspace c then EmptyString else String c EmptyString
      | r => String c r
      end
  end.

(** [s.strip()]. *)
Definition strip (s : string) : string := rstrip (lstrip s).

End Py.

(** ** Data *)

(** One entry of [vm_labels]: [{'key': k, 'value': v}]. *)
Record label := Label { key : string; value : string }.

(** What the control plane lists for an instance ([instance.name],
    [instance.labels], [instance.status]). *)
Record cp_instance := CpInstance {
  cp_name : string;
  cp_labels : gmap string string;
  cp_status : string
}.

(** The dictionary [get_instances_by_labels] builds per matching instance. *)
Record instance := Instance {
  name : string;
  zone : string;
  status : string
}.

(** The dictionary an instance operation returns:
    [{'status': 'success', 'operation': op}] or
    [{'status': 'error', 'message': msg}]. *)
Inductive op_result :=
| Success (operation : string)
| Error (message : string).

Definition result_status (r : op_result) : string :=
  match r with
  | Success _ => "success"
  | Error _ => "error"
  end.

(** One element of [results]. *)
Record entry := Entry {
  e_instance : string;
  e_zone : string;
  e_action : string;
  e_result : op_result
}.

(** The dictionary [process_scale_action] returns: [{'error': msg}], or
    [{'processed': n, 'results': rs}] with an optional ['message']. *)
Inductive response :=
| Failure (error : string)
| Summary (processed : nat) (results : list entry) (message : option string).

(** ** The label matcher *)

(** The [for] loop of [_matches_labels], with its early [return False]. *)
Fixpoint labels_loop (instance_labels : gmap string string)
    (target_labels : list label) : bool :=
  match target_labels with
  | [] => true
  | l :: rest =>
      if bool_decide (instance_labels !! key l ≠ Some (value l)) then false
      else labels_loop instance_labels rest
  end.

Definition _matches_labels (instance_labels : gmap string string)
    (target_labels : list label) : bool :=
  if bool_decide (instance_labels = ∅) then false
  else labels_loop instance_labels target_labels.

(** ** The compute client and the world a run acts on *)

(** What a client method does when called: it returns a value or raises an
    exception [e], kept as the text [str(e)]. *)
Inductive reply (A : Type) :=
| Returned (a : A)
| Raised (e : string).
Arguments Returned {A} a.
Arguments Raised {A} e.

(** What the loop [for instance in self.instances_client.list(request)]
    receives: the instances the pager yields, in order, and the exception
    that cut the iteration short, if any.  A call that raises before the
    first instance has yielded none. *)
Record iteration := Iteration {
  yielded : list cp_instance;
  raised : option string
}.

(** The four instance operations of the control plane. *)
Inductive operation := STOP | START | SUSPEND | RESUME.

(** [compute_v1.InstancesClient]: a state [C] and one transition per method.
    [list] takes the project and zone of its request and gives the iteration
    over the instances of that zone; the instance operations take project,
    zone and instance name and return the name of the started operation.
    The library is not part of the repository, so it is a parameter here. *)
Class InstancesClient (C : Type) := {
  client_list : C → option string → string → iteration * C;
  client_stop : C → option string → string → string → reply string * C;
  client_start : C → option string → string → string → reply string * C;
  client_suspend : C → option string → string → string → reply string * C;
  client_resume : C → option string → string → string → reply string * C
}.

Definition client_op `{InstancesClient C} (op : operation) :
    C → option string → string → string → reply string * C :=
  match op with
  | STOP => client_stop
  | START => client_start
  | SUSPEND => client_suspend
  | RESUME => client_resume
  end.

(** A call made to the client together with what came back. *)
Inductive exchange :=
| Listed (project : option string) (zone : string) (r : iteration)
| Invoked (op : operation) (project : option string) (zone : string)
    (instance_name : string) (r : reply string).

Inductive level := INFO | WARNING | ERROR.

(** The state threaded through a run: the client, the calls made to it so
    far (oldest first) and the records handed to [logger]. *)
Record world (C : Type) := World {
  client : C;
  calls : list exchange;
  logged : list (level * string)
}.
Arguments World {C} client calls logged.
Arguments client {C} w.
Arguments calls {C} w.
Arguments logged {C} w.

(** Computations over the world. *)
Definition M (C A : Type) : Type := world C → A * world C.

#[global] Instance M_ret {C} : MRet (M C) := λ A a w, (a, w).
#[global] Instance M_bind {C} : MBind (M C) :=
  λ A B f m w, let '(a, w') := m w in f a w'.

(** A [for] loop whose body updates the local [acc]. *)
Fixpoint for_each {C A B} (body : B → A → M C B) (l : list A) (acc : B)
    : M C B :=
  match l with
  | [] => mret acc
  | x :: l' => acc' ← body acc x; for_each body l' acc'
  end.

Section Scheduler.

Context {C : Type} `{InstancesClient C}.

Definition log (lv : level) (msg : string) : M C unit :=
  λ w, (tt, World (client w) (calls w) (logged w ++ [(lv, msg)])).

(** [self.instances_client.list(request=ListInstancesRequest(project, zone))] *)
Definition call_list (project : option string) (zone : string)
    : M C iteration :=
  λ w, let '(r, c) := client_list (client w) project zone in
       (r, World c (calls w ++ [Listed project zone r]) (logged w)).

(** [self.instances_client.<op>(request=<Op>InstanceRequest(project, zone,
    instance))] *)
Definition call_op (op : operation) (project : option string)
    (zone instance_name : string) : M C (reply string) :=
  λ w, let '(r, c) := client_op op (client w) project zone instance_name in
       (r, World c (calls w ++ [Invoked op project zone instance_name r])
             (logged w)).

(** *** [class VMScheduler] *)

Record VMScheduler := { project_id : option string }.

(** [__init__]: [self.project_id = project_id or os.environ.get('GCP_PROJECT')] *)
Definition VMScheduler_init (environ : gmap string string)
    (project_id : option string) : VMScheduler :=
  {| project_id := Py.or project_id (environ !! "GCP_PROJECT") |}.

(** The inner loop of [get_instances_by_labels]: append the matching
    instances of one listing. *)
Definition append_matching (zone : string) (labels : list label)
    (instances : list instance) (listing : list cp_instance) : list instance :=
  fold_left
    (λ instances i,
       if _matches_labels (cp_labels i) labels
       then instances ++ [Instance (cp_name i) zone (cp_status i)]
       else instances)
    listing instances.

(** The body of the zone loop, with its [try]/[except]: the matching
    instances are appended as the pager yields them, and an exception ends
    the iteration of this zone without undoing what was appended. *)
Definition list_zone (self : VMScheduler) (labels : list label)
    (instances : list instance) (zone : string) : M C (list instance) :=
  r ← call_list (project_id self) zone;
  let instances := append_matching zone labels instances (yielded r) in
  match raised r with
  | None => mret instances
  | Some e =>
      log ERROR ("Error listing instances in zone " +:+ zone +:+ ": " +:+ e);;
      mret instances
  end.

Definition get_instances_by_labels (self : VMScheduler) (zones : list string)
    (labels : list label) : M C (list instance) :=
  for_each (list_zone self labels) zones [].

(** The shape shared by [stop_instance], [start_instance],
    [suspend_instance] and [resume_instance]: call the client inside
    [try]/[except], log, and return the status dictionary. *)
Definition instance_operation (op : operation) (doing verb : string)
    (self : VMScheduler) (zone instance_name : string) : M C op_result :=
  r ← call_op op (project_id self) zone instance_name;
  match r with
  | Returned operation_name =>
      log INFO (doing +:+ " instance " +:+ instance_name +:+ " in zone "
                +:+ zone);;
      mret (Success operation_name)
  | Raised e =>
      log ERROR ("Error " +:+ verb +:+ " instance " +:+ instance_name +:+ ": "
                 +:+ e);;
      mret (Error e)
  end.

Definition stop_instance := instance_operation STOP "Stopping" "stopping".
Definition start_instance := instance_operation START "Starting" "starting".
Definition suspend_instance :=
  instance_operation SUSPEND "Suspending" "suspending".
Definition resume_instance := instance_operation RESUME "Resuming" "resuming".

(** *** [process_scale_action] *)

(** [os.environ.get(k, d)] *)
Definition environ_get (environ : gmap string string) (k d : string) : string :=
  default d (environ !! k).

(** [project_id] after the fallback to the environment. *)
Definition resolve_project (environ : gmap string string)
    (project_id : option string) : option string :=
  if negb (Py.truthy project_id) then environ !! "GCP_PROJECT"
  else project_id.

(** The parse of [VM_LABELS]: comma-separated [key:value] items; an item
    without a colon is dropped. *)
Definition parse_labels (vm_labels_str : string) : list label :=
  fold_left
    (λ vm_labels l,
       if Py.contains ":" l
       then let '(k, v) := Py.split1 ":" l in
            vm_labels ++ [Label (Py.strip k) (Py.strip v)]
       else vm_labels)
    (Py.split "," vm_labels_str) [].

(** [vm_labels] after the fallback to the environment; [not vm_labels] holds
    for [None] and for the empty list. *)
Definition resolve_labels (environ : gmap string string)
    (vm_labels : option (list label)) : list label :=
  match vm_labels with
  | Some (l :: ls) => l :: ls
  | _ => parse_labels (environ_get environ "VM_LABELS" "auto-schedule:true")
  end.

(** [zones] after the fallback to the environment. *)
Definition resolve_zones (environ : gmap string string)
    (zones : option (list string)) : list string :=
  match zones with
  | Some (z :: zs) => z :: zs
  | _ =>
      Py.strip <$>
        Py.split "," (environ_get environ "VM_ZONES"
                        "us-central1-a,us-central1-b")
  end.

(** The body of the loop over the discovered instances; [continue] leaves
    [results] as it is. *)
Definition process_instance (environ : gmap string string)
    (scheduler : VMScheduler) (action : string) (results : list entry)
    (inst : instance) : M C (list entry) :=
  let zone := zone inst in
  let name := name inst in
  let status := status inst in
  if bool_decide (action = "scale_down")
     && bool_decide (status ∈ ["STOPPED"; "TERMINATED"; "SUSPENDED"])
  then
    log INFO ("Instance " +:+ name +:+ " already stopped/suspended, skipping");;
    mret results
  else if bool_decide (action = "scale_up")
          && bool_decide (status = "RUNNING")
  then
    log INFO ("Instance " +:+ name +:+ " already running, skipping");;
    mret results
  else
    result ←
      (if bool_decide (action = "scale_down") then
         let action_type := environ_get environ "SCALE_DOWN_ACTION" "STOP" in
         if bool_decide (action_type = "SUSPEND")
         then suspend_instance scheduler zone name
         else stop_instance scheduler zone name
       else if bool_decide (action = "scale_up") then
         let action_type := environ_get environ "SCALE_UP_ACTION" "START" in
         if bool_decide (action_type = "RESUME")
         then resume_instance scheduler zone name
         else start_instance scheduler zone name
       else mret (Error ("Unknown action: " +:+ action)));
    mret (results ++ [Entry name zone action result]).

Definition process_scale_action (environ : gmap string string)
    (action : string) (project_id : option string)
    (vm_labels : option (list label)) (zones : option (list string))
    : M C response :=
  let project_id := resolve_project environ project_id in
  if negb (Py.truthy project_id) then
    log ERROR "Project ID not configured";;
    mret (Failure "Project ID not configured")
  else
    let scheduler := VMScheduler_init environ project_id in
    let vm_labels := resolve_labels environ vm_labels in
    let zones := resolve_zones environ zones in
    instances ← get_instances_by_labels scheduler zones vm_labels;
    match instances with
    | [] =>
        log WARNING "No instances found matching the specified labels";;
        mret (Summary 0 [] (Some "No instances found"))
    | _ :: _ =>
        results ← for_each (process_instance environ scheduler action)
                    instances [];
        mret (Summary (length results) results None)
    end.

End Scheduler.

(** ** A scripted client

    A client that answers from a fixed table: what each zone lists, and how
    each instance operation ends.  It is the control plane of the concrete
    runs below. *)

Record script := Script {
  on_list : string → iteration;
  on_op : operation → string → string → reply string
}.

#[global] Instance script_client : InstancesClient script := {|
  client_list s _ z := (on_list s z, s);
  client_stop s _ z n := (on_op s STOP z n, s);
  client_start s _ z n := (on_op s START z n, s);
  client_suspend s _ z n := (on_op s SUSPEND z n, s);
  client_resume s _ z n := (on_op s RESUME z n, s)
|}.

(** A world in which nothing has happened yet. *)
Definition fresh {C} (c : C) : world C := World c [] [].

Module Fixtures.

Definition scheduled : gmap string string := {[ "auto-schedule" := "true" ]}.

(** Zone [z1] holds a running instance [a] and a stopped instance [b], both
    labelled for scheduling; every other zone is empty; every operation
    succeeds. *)
Definition two_instances : script :=
  Script
    (λ z, if bool_decide (z = "z1")
          then Iteration [CpInstance "a" scheduled "RUNNING";
                          CpInstance "b" scheduled "STOPPED"] None
          else Iteration [] None)
    (λ _ _ n, Returned ("op-" +:+ n)).

Definition environ : gmap string string :=
  {[ "GCP_PROJECT" := "demo"; "VM_ZONES" := "z1" ]}.

(** The same fleet behind a control plane that cannot list zone [z2]. *)
Definition unreachable_z2 : script :=
  Script
    (λ z, if bool_decide (z = "z2")
          then Iteration [] (Some "zone unreachable")
          else on_list two_instances z)
    (on_op two_instances).

(** The same fleet behind a control plane whose listing of zone [z2] yields
    the running instance [c] and then fails. *)
Definition interrupted_z2 : script :=
  Script
    (λ z, if bool_decide (z = "z2")
          then Iteration [CpInstance "c" scheduled "RUNNING"]
                 (Some "connection reset")
          else on_list two_instances z)
    (on_op two_instances).

Definition demo : VMScheduler := {| project_id := Some "demo" |}.

(** An environment whose selector text holds no [key:value] item. *)
Definition environ_no_selector : gmap string string :=
  {[ "GCP_PROJECT" := "demo"; "VM_ZONES" := "z1";
     "VM_LABELS" := "auto-schedule=true" ]}.

(** An environment without any of the variables the function reads. *)
Definition unconfigured : gmap string string := ∅.

(** A fleet that is already at rest. *)
Definition stabilized : script :=
  Script
    (λ z, if bool_decide (z = "z1")
          then Iteration [CpInstance "b" scheduled "STOPPED";
                          CpInstance "c" scheduled "TERMINATED";
                          CpInstance "d" scheduled "SUSPENDED"] None
          else Iteration [] None)
    (λ _ _ n, Returned ("op-" +:+ n)).

(** Three running instances; every operation on [i2] is refused. *)
Definition refusing_i2 : script :=
  Script
    (λ z, if bool_decide (z = "z1")
          then Iteration [CpInstance "i1" scheduled "RUNNING";
                          CpInstance "i2" scheduled "RUNNING";
                          CpInstance "i3" scheduled "RUNNING"] None
          else Iteration [] None)
    (λ _ _ n, if bool_decide (n = "i2") then Raised "quota exceeded"
              else Returned ("op-" +:+ n)).

Definition selector : list label := [Label "auto-schedule" "true"].

End Fixtures.

(** ** Vocabulary of the statements *)

(** The states in which a scale-down leaves an instance alone. *)
Definition at_rest : list string := ["STOPPED"; "TERMINATED"; "SUSPENDED"].

(** The instance operations among the calls of a world. *)
Definition is_invocation (x : exchange) : bool :=
  match x with
  | Invoked _ _ _ _ _ => true
  | Listed _ _ _ => false
  end.

Definition invocations {C} (w : world C) : list exchange :=
  List.filter is_invocation (calls w).

(** Every pair of the selector is present in the mapping with that value. *)
Definition all_present (L : gmap string string) (S : list label) : Prop :=
  Forall (λ l, L !! key l = Some (value l)) S.

(** The instances among [listing] that satisfy the selector, as discovery
    records them for [zone]. *)
Definition matching (zone : string) (labels : list label)
    (listing : list cp_instance) : list instance :=
  (λ i, Instance (cp_name i) zone (cp_status i)) <$>
    List.filter (λ i, _matches_labels (cp_labels i) labels) listing.

(** What one exchange with the client adds to the discovered instances:
    the matching instances a listing yielded, whether or not it went on to
    fail. *)
Definition contribution (labels : list label) (x : exchange) : list instance :=
  match x with
  | Listed _ zone r => matching zone labels (yielded r)
  | Invoked _ _ _ _ _ => []
  end.

(** What a listing adds under the empty selector: its instances that carry
    at least one label. *)
Definition labelled (x : exchange) : list instance :=
  match x with
  | Listed _ zone r =>
      (λ i, Instance (cp_name i) zone (cp_status i)) <$>
        List.filter (λ i, bool_decide (cp_labels i ≠ ∅)) (yielded r)
  | Invoked _ _ _ _ _ => []
  end.

(** The zone a listing call was made for. *)
Definition listed_zone (x : exchange) : option string :=
  match x with
  | Listed _ zone _ => Some zone
  | Invoked _ _ _ _ _ => None
  end.

(** The status dictionary an instance operation builds from the reply of
    the client. *)
Definition outcome (r : reply string) : op_result :=
  match r with
  | Returned operation_name => Success operation_name
  | Raised e => Error e
  end.

(** The operation the environment selects for each direction. *)
Definition scale_down_operation (environ : gmap string string) : operation :=
  if bool_decide (environ_get environ "SCALE_DOWN_ACTION" "STOP" = "SUSPEND")
  then SUSPEND else STOP.

Definition scale_up_operation (environ : gmap string string) : operation :=
  if bool_decide (environ_get environ "SCALE_UP_ACTION" "START" = "RESUME")
  then RESUME else START.

(** Whether the loop passes over an instance in state [st]. *)
Definition skipped (action st : string) : bool :=
  bool_decide (action = "scale_down") && bool_decide (st ∈ at_rest)
  || bool_decide (action = "scale_up") && bool_decide (st = "RUNNING").

(** The operation a run with a known [action] invokes. *)
Definition configured_operation (environ : gmap string string)
    (action : string) : operation :=
  if bool_decide (action = "scale_down") then scale_down_operation environ
  else scale_up_operation environ.

(** The fields of a summary; an error result has neither. *)
Definition results_of (r : response) : list entry :=
  match r with
  | Summary _ results _ => results
  | Failure _ => []
  end.

Definition processed_of (r : response) : option nat :=
  match r with
  | Summary processed _ _ => Some processed
  | Failure _ => None
  end.

(** The discovery step of a run: the scheduler, zones and selector are the
    ones [process_scale_action] resolves. *)
Definition discover `{InstancesClient C} (environ : gmap string string)
    (project_id : option string) (vm_labels : option (list label))
    (zones : option (list string)) : M C (list instance) :=
  get_instances_by_labels
    (VMScheduler_init environ (resolve_project environ project_id))
    (resolve_zones environ zones) (resolve_labels environ vm_labels).

(** *** The policy table of the design document

    [ActionPolicy.decide] as the document words it, to be compared with the
    loop body of the source. *)

Module ActionPolicy.

Inductive ScaleIntent := SCALE_UP | SCALE_DOWN.

Record ScaleConfig := {
  scaleDownOperation : operation;
  scaleUpOperation : operation
}.

Inductive Decision := Skip | Perform (op : operation).

Definition decide (intent : ScaleIntent) (currentState : string)
    (config : ScaleConfig) : Decision :=
  match intent with
  | SCALE_DOWN =>
      if bool_decide (currentState ∈ ["STOPPED"; "TERMINATED"; "SUSPENDED"])
      then Skip else Perform (scaleDownOperation config)
  | SCALE_UP =>
      if bool_decide (currentState = "RUNNING")
      then Skip else Perform (scaleUpOperation config)
  end.

End ActionPolicy.

Export ActionPolicy (ScaleIntent, SCALE_UP, SCALE_DOWN, ScaleConfig,
  scaleDownOperation, scaleUpOperation, Decision, Skip, Perform).



(** What carrying out a decision for [inst] means, from world [w] with
    [results] so far, for the outcome [r] of the loop body: a skip leaves
    results, calls and client as they are; a performed operation is one call
    to the client, recorded with its reply, and one new entry. *)
Definition carried_out `{InstancesClient C} (d : Decision)
    (scheduler : VMScheduler) (action : string) (results : list entry)
    (inst : instance) (w : world C) (r : list entry * world C) : Prop :=
  match d with
  | Skip =>
      r.1 = results ∧ calls r.2 = calls w ∧ client r.2 = client w
  | Perform op =>
      let call :=
        client_op op (client w) (project_id scheduler) (zone inst) (name inst)
      in
      r.1 = results ++ [Entry (name inst) (zone inst) action (outcome call.1)]
      ∧ calls r.2 =
          calls w ++ [Invoked op (project_id scheduler) (zone inst) (name inst)
                        call.1]
      ∧ client r.2 = call.2
  end.

(** ** The entry point *)

(** The decoded Pub/Sub message: a JSON object whose fields, when present,
    have the types the function expects ([action] and [project_id] strings,
    [vm_labels] a list of label objects, [zones] a list of strings).  A
    missing key is [None], as [data.get] gives it. *)
Record message := Message {
  m_action : option string;
  m_project_id : option string;
  m_vm_labels : option (list label);
  m_zones : option (list string)
}.

(** The empty object [{}]. *)
Definition empty_message : message := Message None None None None.

(** [vm_scheduler].  [decoded] is how the [try] block around
    [base64.b64decode] and [json.loads] ends: with the decoded object, or
    with an exception.  [render] is the text an f-string gives a result
    dictionary. *)
Definition vm_scheduler `{InstancesClient C} (environ : gmap string string)
    (render : response → string) (decoded : reply message) : M C response :=
  data ← match decoded with
         | Returned data => mret data
         | Raised e =>
             log ERROR ("Error decoding message: " +:+ e);;
             mret empty_message
         end;
  let action := default "scale_down" (m_action data) in
  let project_id := m_project_id data in
  let vm_labels := m_vm_labels data in
  let zones := m_zones data in
  log INFO ("Processing action: " +:+ action);;
  result ← process_scale_action environ action project_id vm_labels zones;
  log INFO ("Action completed: " +:+ render result);;
  mret result.

(** ** Vocabulary of the further properties *)

(** What the listing of zone [z] adds to the discovered instances, and to
    the log. *)
Definition found (labels : list label) (z : string) (rp : iteration)
    : list instance :=
  matching z labels (yielded rp).

Definition listing_errors (z : string) (rp : iteration)
    : list (level * string) :=
  match raised rp with
  | None => []
  | Some e =>
      [(ERROR, "Error listing instances in zone " +:+ z +:+ ": " +:+ e)]
  end.

(** The record the loop logs when it passes over the instance named [n]. *)
Definition skip_record (action n : string) : level * string :=
  (INFO,
   if bool_decide (action = "scale_down")
   then "Instance " +:+ n +:+ " already stopped/suspended, skipping"
   else "Instance " +:+ n +:+ " already running, skipping").

(** The instances a run acts on: the discovered ones it does not pass
    over. *)
Definition acted_on (action : string) (instances : list instance)
    : list instance :=
  List.filter (λ i, negb (skipped action (status i))) instances.

(** The entry the loop appends for an instance whose operation got the
    reply [rp]. *)
Definition entry_for (action : string) (i : instance) (rp : reply string)
    : entry :=
  Entry (name i) (zone i) action (outcome rp).

(** The object [vm_scheduler] works on: the decoded one, or [{}] when
    decoding raised. *)
Definition received (decoded : reply message) : message :=
  match decoded with
  | Returned data => data
  | Raised _ => empty_message
  end.

(** An invocation of [op] for project [p]. *)
Definition invokes (ops : list operation) (p : option string) (x : exchange)
    : Prop :=
  ∃ op z n rp, x = Invoked op p z n rp ∧ op ∈ ops.

(** [sep.join(l)] *)
Fixpoint join (sep : string) (l : list string) : string :=
  match l with
  | [] => ""
  | [s] => s
  | s :: rest => s +:+ sep +:+ join sep rest
  end.

(** The text of a selector in the format of [VM_LABELS]:
    [key1:value1,key2:value2]. *)
Definition render_labels (ls : list label) : string :=
  join "," ((λ l, key l +:+ ":" +:+ value l) <$> ls).

(** The labels one comma-separated item of [VM_LABELS] stands for. *)
Definition parse_item (l : string) : list label :=
  if Py.contains ":" l
  then let '(k, v) := Py.split1 ":" l in [Label (Py.strip k) (Py.strip v)]
  else [].

(** A key that survives rendering and parsing: no separator inside, no
    blank at either end.  A value may hold colons. *)
Definition clean_key (k : string) : Prop :=
  Py.contains "," k = false ∧ Py.contains ":" k = false ∧ Py.strip k = k.

Definition clean_value (v : string) : Prop :=
  Py.contains "," v = false ∧ Py.strip v = v.

Definition clean_label (l : label) : Prop :=
  clean_key (key l) ∧ clean_value (value l).

(** ** The embedding on concrete inputs *)

Example parse_labels_default :
  parse_labels "auto-schedule:true" = [Label "auto-schedule" "true"].
Proof. reflexivity. Qed.

Example parse_labels_items :
  parse_labels " env : prod ,team:a:b,,plain"
  = [Label "env" "prod"; Label "team" "a:b"].
Proof. reflexivity. Qed.

Example parse_labels_without_colon : parse_labels "auto-schedule=true" = [].
Proof. reflexivity. Qed.

Example resolve_zones_default :
  resolve_zones ∅ None = ["us-central1-a"; "us-central1-b"].
Proof. reflexivity. Qed.

Example resolve_zones_empty_request :
  resolve_zones Fixtures.environ (Some []) = ["z1"].
Proof. reflexivity. Qed.

Example resolve_project_prefers_request :
  resolve_project Fixtures.environ (Some "other") = Some "other"
  ∧ resolve_project Fixtures.environ (Some "") = Some "demo"
  ∧ resolve_project Fixtures.environ None = Some "demo".
Proof. repeat split. Qed.

Example matches_labels_examples :
  _matches_labels Fixtures.scheduled Fixtures.selector = true
  ∧ _matches_labels Fixtures.scheduled [Label "auto-schedule" "True"] = false
  ∧ _matches_labels Fixtures.scheduled [Label "env" "prod"] = false
  ∧ _matches_labels Fixtures.scheduled [] = true.
Proof. repeat split. Qed.

Example scale_up_run :
  let r := process_scale_action Fixtures.environ "scale_up" None None None
             (fresh Fixtures.two_instances) in
  r.1 = Summary 1 [Entry "b" "z1" "scale_up" (Success "op-b")] None
  ∧ invocations r.2 = [Invoked START (Some "demo") "z1" "b" (Returned "op-b")]
  ∧ logged r.2 = [(INFO, "Instance a already running, skipping");
                  (INFO, "Starting instance b in zone z1")].
Proof. repeat split. Qed.

(** ** Properties of the label matcher *)

Section Matcher.

Implicit Types (L : gmap string string) (S : list label).

Lemma labels_loop_true L S : labels_loop L S = true ↔ all_present L S.
Proof.
  unfold all_present. induction S as [|l S IH]; simpl.
  - split; [constructor | done].
  - case_bool_decide as Hl.
    + split; [done |]. intros HF. by inversion HF.
    + rewrite IH. split.
      * intros HF. by constructor.
      * intros HF. by inversion HF.
Qed.

Lemma matches_labels_empty S : _matches_labels ∅ S = false.
Proof. unfold _matches_labels. by rewrite bool_decide_eq_true_2. Qed.

Lemma matches_labels_nonempty L S :
  L ≠ ∅ → _matches_labels L S = labels_loop L S.
Proof. intros HL. unfold _matches_labels. by rewrite bool_decide_eq_false_2. Qed.

Lemma matches_labels_nil L : _matches_labels L [] = bool_decide (L ≠ ∅).
Proof.
  unfold _matches_labels. simpl.
  case_bool_decide; symmetry.
  - by apply bool_decide_eq_false_2; intros Hn.
  - by apply bool_decide_eq_true_2.
Qed.

End Matcher.

(** C4 (as stated, refuted): on the empty mapping and the empty selector
    every pair of the selector is present, yet the matcher answers [False]:
    the guard [if not instance_labels] comes before the loop. *)
Lemma matches_labels_iff_fails_on_empty :
  ¬ (_matches_labels ∅ [] = true ↔ all_present ∅ []).
Proof.
  intros [_ Hback].
  assert (Hm : _matches_labels ∅ [] = true) by (apply Hback; constructor).
  vm_compute in Hm. discriminate.
Qed.

(** C4 (amended): the matcher answers [True] exactly when the mapping is
    non-empty and holds every pair of the selector with an equal value; on
    the empty mapping it answers [False] for every selector, the empty one
    included. *)
Theorem matches_labels_spec (L : gmap string string) (S : list label) :
  (_matches_labels L S = true ↔ L ≠ ∅ ∧ all_present L S)
  ∧ (L = ∅ → _matches_labels L S = false).
Proof.
  split.
  - destruct (decide (L = ∅)) as [-> | HL].
    + rewrite matches_labels_empty. split; [done | by intros [? _]].
    + rewrite matches_labels_nonempty, labels_loop_true by done. tauto.
  - intros ->. apply matches_labels_empty.
Qed.

(** The matcher on the scheduling label of the fixtures, and on an instance
    without labels. *)
Lemma matches_labels_spec_witness :
  (_matches_labels Fixtures.scheduled [Label "auto-schedule" "true"] = true
   ↔ Fixtures.scheduled ≠ ∅
     ∧ all_present Fixtures.scheduled [Label "auto-schedule" "true"])
  ∧ _matches_labels ∅ [Label "auto-schedule" "true"] = false.
Proof.
  split.
  - apply (matches_labels_spec Fixtures.scheduled).
  - apply (matches_labels_spec ∅ [Label "auto-schedule" "true"]). reflexivity.
Defined.

(** ** Running computations *)

Section Run.

Context {C : Type}.

Lemma run_bind {A B} (m : M C A) (f : A → M C B) (w : world C) :
  (m ≫= f) w = f (m w).1 (m w).2.
Proof. unfold mbind, M_bind. by destruct (m w). Qed.

Lemma run_ret {A} (a : A) (w : world C) : (mret a : M C A) w = (a, w).
Proof. done. Qed.

Lemma for_each_cons {A B} (body : B → A → M C B) x l acc (w : world C) :
  for_each body (x :: l) acc w =
  for_each body l (body acc x w).1 (body acc x w).2.
Proof. simpl. by rewrite run_bind. Qed.

Lemma for_each_app {A B} (body : B → A → M C B) l1 l2 acc (w : world C) :
  for_each body (l1 ++ l2) acc w =
  for_each body l2 (for_each body l1 acc w).1 (for_each body l1 acc w).2.
Proof.
  revert acc w. induction l1 as [|x l1 IH]; intros acc w; [done |].
  rewrite <- app_comm_cons, !for_each_cons. apply IH.
Qed.

Lemma invocations_app (w : world C) (xs : list exchange) (w' : world C) :
  calls w' = calls w ++ xs →
  invocations w' = invocations w ++ List.filter is_invocation xs.
Proof. unfold invocations. intros ->. apply List.filter_app. Qed.

End Run.

(** ** Discovery *)

Section Discovery.

Context {C : Type} `{InstancesClient C}.

Implicit Types (self : VMScheduler) (w : world C) (labels : list label).

Lemma append_matching_spec zone labels instances listing :
  append_matching zone labels instances listing =
  instances ++ matching zone labels listing.
Proof.
  unfold append_matching, matching. revert instances.
  induction listing as [|i listing IH]; intros instances; simpl.
  - by rewrite app_nil_r.
  - rewrite IH. destruct (_matches_labels (cp_labels i) labels); [| done].
    by rewrite <- app_assoc.
Qed.

(** One turn of the zone loop: one call to [list], recorded with what its
    iteration gave; however the iteration ends, the turn ends normally with
    the instances found so far plus the matching instances it yielded. *)
Lemma list_zone_run self labels instances z w :
  let x := Listed (project_id self) z
             (client_list (client w) (project_id self) z).1 in
  let r := list_zone self labels instances z w in
  r.1 = instances ++ contribution labels x
  ∧ calls r.2 = calls w ++ [x]
  ∧ client r.2 = (client_list (client w) (project_id self) z).2.
Proof.
  unfold list_zone. rewrite run_bind. unfold call_list.
  destruct (client_list (client w) (project_id self) z)
    as [[listing [e |]] c]; simpl; by rewrite append_matching_spec.
Qed.

Lemma zone_loop_spec self labels zones instances w :
  let r := for_each (list_zone self labels) zones instances w in
  ∃ xs,
    calls r.2 = calls w ++ xs
    ∧ listed_zone <$> xs = Some <$> zones
    ∧ r.1 = instances ++ (xs ≫= contribution labels).
Proof.
  revert instances w. induction zones as [|z zones IH]; intros instances w.
  - exists []. simpl. by rewrite !app_nil_r.
  - cbv zeta. rewrite for_each_cons.
    destruct (list_zone_run self labels instances z w) as (H1 & H2 & _).
    destruct (IH (list_zone self labels instances z w).1
                 (list_zone self labels instances z w).2) as (xs & E1 & E2 & E3).
    eexists (_ :: xs). split; [| split].
    + rewrite E1, H2, <- app_assoc. reflexivity.
    + rewrite !fmap_cons, E2. reflexivity.
    + rewrite E3, H1, <- app_assoc. reflexivity.
Qed.

Lemma is_invocation_listing (xs : list exchange) (zones : list string) :
  listed_zone <$> xs = Some <$> zones → List.filter is_invocation xs = [].
Proof.
  revert zones. induction xs as [|x xs IH]; intros zones Hz; [done |].
  destruct zones as [|z zones]; [done |]. rewrite !fmap_cons in Hz.
  injection Hz as Hx Hxs. destruct x; [| done]. simpl. by apply (IH zones).
Qed.

(** Discovery lists every zone once, in order, and calls nothing else. *)
Lemma get_instances_by_labels_spec self zones labels w :
  let r := get_instances_by_labels self zones labels w in
  ∃ xs,
    calls r.2 = calls w ++ xs
    ∧ listed_zone <$> xs = Some <$> zones
    ∧ r.1 = xs ≫= contribution labels.
Proof. apply (zone_loop_spec self labels zones [] w). Qed.

Lemma get_instances_by_labels_invocations self zones labels w :
  invocations (get_instances_by_labels self zones labels w).2 = invocations w.
Proof.
  destruct (get_instances_by_labels_spec self zones labels w)
    as (xs & E1 & E2 & _).
  rewrite (invocations_app _ _ _ E1), (is_invocation_listing _ _ E2).
  apply app_nil_r.
Qed.

End Discovery.

Section DiscoveryClaims.

Context {C : Type} `{InstancesClient C}.

Lemma elem_of_matching zone labels listing (i : cp_instance) :
  i ∈ listing → _matches_labels (cp_labels i) labels = true →
  Instance (cp_name i) zone (cp_status i) ∈ matching zone labels listing.
Proof.
  intros Hi Hm. unfold matching. apply list_elem_of_fmap. exists i.
  split; [done |]. apply list_elem_of_In, List.filter_In.
  split; [by apply list_elem_of_In | done].
Qed.

(** C7 (amended): when the listing of a zone [z2] raises during discovery,
    the call still returns; every zone is listed once, in order; the
    discovered instances are those contributed by the listings before and
    after the failed one, and between them the matching instances the failed
    listing had yielded before it raised, none when it raised at once; and
    every instance that another listing yielded and that satisfies the
    selector is among them. *)
Theorem zone_failure_is_isolated (self : VMScheduler) (zones : list string)
    (labels : list label) (w : world C) (xs1 xs2 : list exchange)
    (z2 : string) (items : list cp_instance) (e : string) :
  let r := get_instances_by_labels self zones labels w in
  let failed := Listed (project_id self) z2 (Iteration items (Some e)) in
  calls r.2 = calls w ++ xs1 ++ failed :: xs2 →
  listed_zone <$> (xs1 ++ failed :: xs2) = Some <$> zones
  ∧ r.1 = (xs1 ≫= contribution labels)
          ++ matching z2 labels items
          ++ (xs2 ≫= contribution labels)
  ∧ (items = [] →
     r.1 = (xs1 ≫= contribution labels) ++ (xs2 ≫= contribution labels))
  ∧ ∀ p z1 rp i,
      Listed p z1 rp ∈ xs1 ++ xs2 →
      i ∈ yielded rp →
      _matches_labels (cp_labels i) labels = true →
      Instance (cp_name i) z1 (cp_status i) ∈ r.1.
Proof.
  intros r failed Hcalls.
  destruct (get_instances_by_labels_spec self zones labels w)
    as (xs & E1 & E2 & E3).
  fold r in E1, E3. rewrite E1 in Hcalls. apply app_inv_head in Hcalls.
  subst xs. split; [done |].
  assert (Hr : r.1 = (xs1 ≫= contribution labels)
                     ++ matching z2 labels items
                     ++ (xs2 ≫= contribution labels)).
  { rewrite E3, bind_app, bind_cons. reflexivity. }
  split; [done |]. split; [by intros -> |].
  intros p z1 rp i Hx Hi Hm. rewrite Hr.
  assert (Hin : Instance (cp_name i) z1 (cp_status i)
                ∈ contribution labels (Listed p z1 rp)).
  { simpl. by apply elem_of_matching. }
  apply elem_of_app in Hx as [Hx | Hx].
  - apply elem_of_app. left. apply list_elem_of_bind. eauto.
  - apply elem_of_app. right. apply elem_of_app. right.
    apply list_elem_of_bind. eauto.
Qed.

End DiscoveryClaims.

(** C7 (as stated, refuted): the listing of zone [z2] yields the labelled
    instance [c] and then raises.  Discovery returns normally and lists
    [z1] as well, but the failed zone has contributed [c]. *)
Lemma interrupted_listing_keeps_its_instances :
  let r := get_instances_by_labels Fixtures.demo ["z2"; "z1"]
             Fixtures.selector (fresh Fixtures.interrupted_z2) in
  calls r.2
  = [Listed (Some "demo") "z2"
       (Iteration [CpInstance "c" Fixtures.scheduled "RUNNING"]
          (Some "connection reset"));
     Listed (Some "demo") "z1"
       (Iteration [CpInstance "a" Fixtures.scheduled "RUNNING";
                   CpInstance "b" Fixtures.scheduled "STOPPED"] None)]
  ∧ logged r.2
    = [(ERROR, "Error listing instances in zone z2: connection reset")]
  ∧ r.1 = [Instance "c" "z2" "RUNNING"; Instance "a" "z1" "RUNNING";
           Instance "b" "z1" "STOPPED"]
  ∧ ¬ (∀ inst, inst ∈ r.1 → zone inst ≠ "z2").
Proof.
  cbv zeta. split; [reflexivity |]. split; [reflexivity |].
  split; [reflexivity |]. intros Hnone.
  apply (Hnone (Instance "c" "z2" "RUNNING")); [| reflexivity].
  change (Instance "c" "z2" "RUNNING"
          ∈ [Instance "c" "z2" "RUNNING"; Instance "a" "z1" "RUNNING";
             Instance "b" "z1" "STOPPED"]).
  apply list_elem_of_here.
Qed.

(** Discovery over an unreachable [z2] followed by [z1]: the instances of
    [z1] are found. *)
Lemma zone_failure_is_isolated_witness :
  let r := get_instances_by_labels Fixtures.demo ["z2"; "z1"]
             Fixtures.selector (fresh Fixtures.unreachable_z2) in
  r.1 = [Instance "a" "z1" "RUNNING"; Instance "b" "z1" "STOPPED"]
  ∧ Instance "a" "z1" "RUNNING" ∈ r.1.
Proof.
  pose proof (zone_failure_is_isolated Fixtures.demo ["z2"; "z1"]
                Fixtures.selector (fresh Fixtures.unreachable_z2) []
                [Listed (Some "demo") "z1"
                   (Iteration [CpInstance "a" Fixtures.scheduled "RUNNING";
                               CpInstance "b" Fixtures.scheduled "STOPPED"]
                      None)]
                "z2" [] "zone unreachable" eq_refl) as (_ & _ & Hr & Hin).
  split; [exact (Hr eq_refl) |].
  apply (Hin (Some "demo") "z1"
           (Iteration [CpInstance "a" Fixtures.scheduled "RUNNING";
                       CpInstance "b" Fixtures.scheduled "STOPPED"] None)
           (CpInstance "a" Fixtures.scheduled "RUNNING")).
  - apply list_elem_of_here.
  - apply list_elem_of_here.
  - reflexivity.
Defined.

(** ** The loop over the discovered instances *)

Section Processing.

Context {C : Type} `{InstancesClient C}.

Implicit Types (scheduler : VMScheduler) (w : world C) (inst : instance)
  (environ : gmap string string) (results : list entry).

Lemma instance_operation_run op doing verb scheduler z n w :
  let call := client_op op (client w) (project_id scheduler) z n in
  let r := instance_operation op doing verb scheduler z n w in
  r.1 = outcome call.1
  ∧ calls r.2 = calls w ++ [Invoked op (project_id scheduler) z n call.1]
  ∧ client r.2 = call.2.
Proof.
  unfold instance_operation. rewrite run_bind. unfold call_op.
  by destruct (client_op op (client w) (project_id scheduler) z n)
    as [[o | e] c].
Qed.

(** Close a goal about one instance operation from its run lemma. *)
Ltac perform_step :=
  match goal with
  | |- context [instance_operation ?op ?d ?v ?s ?z ?n ?w] =>
      destruct (instance_operation_run op d v s z n w) as (E1 & E2 & E3);
      cbv zeta in E1, E2, E3; simpl; by rewrite E1, E2, E3
  end.

Lemma skipped_scale_down st :
  skipped "scale_down" st = bool_decide (st ∈ at_rest).
Proof. unfold skipped. simpl. by rewrite orb_false_r. Qed.

Lemma skipped_scale_up st :
  skipped "scale_up" st = bool_decide (st = "RUNNING").
Proof. done. Qed.

Lemma skipped_unknown action st :
  action ≠ "scale_down" → action ≠ "scale_up" → skipped action st = false.
Proof.
  intros Hd Hu. unfold skipped.
  by rewrite (bool_decide_eq_false_2 _ Hd), (bool_decide_eq_false_2 _ Hu).
Qed.

(** [continue]: nothing is appended and the client is not called. *)
Lemma process_instance_skip environ scheduler action results inst w :
  skipped action (status inst) = true →
  let r := process_instance environ scheduler action results inst w in
  r.1 = results ∧ calls r.2 = calls w ∧ client r.2 = client w.
Proof.
  unfold skipped, process_instance, at_rest. intros Hs.
  destruct (bool_decide (action = "scale_down")
            && bool_decide (status inst ∈ ["STOPPED"; "TERMINATED"; "SUSPENDED"]));
    [done |].
  simpl in Hs. by rewrite Hs.
Qed.

Lemma process_instance_perform environ scheduler action results inst w :
  action = "scale_down" ∨ action = "scale_up" →
  skipped action (status inst) = false →
  carried_out (Perform (configured_operation environ action)) scheduler action
    results inst w (process_instance environ scheduler action results inst w).
Proof.
  unfold skipped, process_instance, at_rest, configured_operation.
  intros Ha Hs. apply orb_false_elim in Hs as [-> ->].
  rewrite run_bind. unfold carried_out.
  destruct Ha as [-> | ->].
  - rewrite (bool_decide_eq_true_2 ("scale_down" = "scale_down")) by done.
    unfold scale_down_operation, suspend_instance, stop_instance.
    destruct (bool_decide
                (environ_get environ "SCALE_DOWN_ACTION" "STOP" = "SUSPEND"));
      perform_step.
  - rewrite (bool_decide_eq_false_2 ("scale_up" = "scale_down")) by done.
    rewrite (bool_decide_eq_true_2 ("scale_up" = "scale_up")) by done.
    unfold scale_up_operation, resume_instance, start_instance.
    destruct (bool_decide
                (environ_get environ "SCALE_UP_ACTION" "START" = "RESUME"));
      perform_step.
Qed.

Lemma process_instance_unknown environ scheduler action results inst w :
  action ≠ "scale_down" → action ≠ "scale_up" →
  process_instance environ scheduler action results inst w =
  (results ++ [Entry (name inst) (zone inst) action
                 (Error ("Unknown action: " +:+ action))], w).
Proof.
  intros Hd Hu. unfold process_instance.
  by rewrite (bool_decide_eq_false_2 _ Hd), (bool_decide_eq_false_2 _ Hu).
Qed.

End Processing.

Section Policy.

Context {C : Type} `{InstancesClient C}.




End Policy.

Section Loop.

Context {C : Type} `{InstancesClient C}.

Implicit Types (scheduler : VMScheduler) (w : world C)
  (environ : gmap string string) (results : list entry)
  (instances : list instance).

(** When every instance is passed over, the loop changes nothing but the
    log. *)
Lemma loop_all_skipped environ scheduler action instances results w :
  Forall (λ i, skipped action (status i) = true) instances →
  let r :=
    for_each (process_instance environ scheduler action) instances results w in
  r.1 = results ∧ calls r.2 = calls w ∧ client r.2 = client w.
Proof.
  intros Hall. revert results w.
  induction Hall as [|i instances Hi _ IH]; intros results w; [done |].
  cbv zeta. rewrite for_each_cons.
  destruct (process_instance_skip environ scheduler action results i w Hi)
    as (E1 & E2 & E3).
  destruct (IH (process_instance environ scheduler action results i w).1
               (process_instance environ scheduler action results i w).2)
    as (F1 & F2 & F3).
  by rewrite F1, F2, F3, E1, E2, E3.
Qed.

(** With an action that is neither direction, every instance gets the
    unknown-action entry and the world is left as it is. *)
Lemma loop_unknown environ scheduler action instances results w :
  action ≠ "scale_down" → action ≠ "scale_up" →
  for_each (process_instance environ scheduler action) instances results w =
  (results ++
     ((λ i, Entry (name i) (zone i) action
              (Error ("Unknown action: " +:+ action))) <$> instances), w).
Proof.
  intros Hd Hu. revert results.
  induction instances as [|i instances IH]; intros results.
  - simpl. by rewrite app_nil_r.
  - rewrite for_each_cons, process_instance_unknown by done. simpl.
    by rewrite IH, <- app_assoc.
Qed.

(** When every instance needs the action, the loop makes one call per
    instance, in order, and appends one entry per instance that carries the
    outcome of that instance's own call. *)
Lemma loop_all_acting environ scheduler action instances results w :
  action = "scale_down" ∨ action = "scale_up" →
  Forall (λ i, skipped action (status i) = false) instances →
  let r :=
    for_each (process_instance environ scheduler action) instances results w in
  ∃ replies : list (reply string),
    length replies = length instances
    ∧ calls r.2 =
        calls w ++
        zip_with (λ i rp, Invoked (configured_operation environ action)
                            (project_id scheduler) (zone i) (name i) rp)
          instances replies
    ∧ r.1 =
        results ++
        zip_with (λ i rp, Entry (name i) (zone i) action (outcome rp))
          instances replies.
Proof.
  intros Ha Hall. revert results w.
  induction Hall as [|i instances Hi _ IH]; intros results w.
  - exists []. simpl. by rewrite !app_nil_r.
  - cbv zeta. rewrite for_each_cons.
    destruct (process_instance_perform environ scheduler action results i w
                Ha Hi) as (E1 & E2 & _).
    destruct (IH (process_instance environ scheduler action results i w).1
                 (process_instance environ scheduler action results i w).2)
      as (replies & L & F1 & F2).
    eexists (_ :: replies). split; [| split].
    + simpl. by rewrite L.
    + rewrite F1, E2, <- app_assoc. reflexivity.
    + rewrite F2, E1, <- app_assoc. reflexivity.
Qed.

(** Whatever the action, the entries of the loop are those of the instances
    it does not pass over, in order. *)
Lemma loop_entries environ scheduler action instances results w :
  let r :=
    for_each (process_instance environ scheduler action) instances results w in
  (λ e, (e_instance e, e_zone e)) <$> r.1 =
  ((λ e, (e_instance e, e_zone e)) <$> results) ++
  ((λ i, (name i, zone i)) <$>
     List.filter (λ i, negb (skipped action (status i))) instances).
Proof.
  revert results w. induction instances as [|i instances IH];
    intros results w.
  - simpl. by rewrite app_nil_r.
  - cbv zeta. rewrite for_each_cons, IH. simpl.
    destruct (skipped action (status i)) eqn:Hs; simpl.
    + by destruct (process_instance_skip environ scheduler action results i w
                     Hs) as (-> & _).
    + destruct (decide (action = "scale_down" ∨ action = "scale_up"))
        as [Ha | Hn].
      * destruct (process_instance_perform environ scheduler action results i
                    w Ha Hs) as (-> & _).
        by rewrite fmap_app, <- app_assoc.
      * rewrite process_instance_unknown by tauto. simpl.
        by rewrite fmap_app, <- app_assoc.
Qed.

(** A run with a project: discovery, then either the no-instances summary
    or the loop over what was discovered. *)
Lemma process_scale_action_run environ action project_id vm_labels zones w :
  Py.truthy (resolve_project environ project_id) = true →
  let d := discover environ project_id vm_labels zones w in
  let scheduler :=
    VMScheduler_init environ (resolve_project environ project_id) in
  process_scale_action environ action project_id vm_labels zones w =
  match d.1 with
  | [] =>
      (Summary 0 [] (Some "No instances found"),
       (log WARNING "No instances found matching the specified labels" d.2).2)
  | _ :: _ =>
      let r := for_each (process_instance environ scheduler action) d.1 [] d.2
      in (Summary (length r.1) r.1 None, r.2)
  end.
Proof.
  intros Hp. unfold process_scale_action, discover. rewrite Hp.
  change (negb true) with false. cbv iota. rewrite run_bind.
  destruct (get_instances_by_labels _ _ _ w).1 as [|i instances]; [done |].
  by rewrite run_bind.
Qed.

End Loop.

Section Logging.

Context {C : Type} `{InstancesClient C}.

Implicit Types (scheduler : VMScheduler) (w : world C)
  (environ : gmap string string) (results : list entry).

Lemma instance_operation_logged op doing verb scheduler z n w :
  ∃ m, logged (instance_operation op doing verb scheduler z n w).2
       = logged w ++ [m].
Proof.
  unfold instance_operation. rewrite run_bind. unfold call_op.
  destruct (client_op op (client w) (project_id scheduler) z n)
    as [[o | e] c]; simpl; eauto.
Qed.

(** The loop body only adds to the log. *)
Lemma process_instance_logged environ scheduler action results inst w :
  ∃ ms, logged (process_instance environ scheduler action results inst w).2
        = logged w ++ ms.
Proof.
  unfold process_instance.
  destruct (_ && _); [by eexists [_] |].
  destruct (_ && _); [by eexists [_] |].
  rewrite run_bind. simpl.
  unfold suspend_instance, stop_instance, resume_instance, start_instance.
  repeat case_bool_decide;
    try match goal with
      | |- context [instance_operation ?op ?d ?v ?s ?z ?n ?w] =>
          destruct (instance_operation_logged op d v s z n w) as [m ->];
          by exists [m]
      end.
  exists []. simpl. by rewrite app_nil_r.
Qed.

(** Passing over an instance at rest is logged. *)
Lemma process_instance_skip_logged environ scheduler results inst w :
  status inst ∈ at_rest →
  logged (process_instance environ scheduler "scale_down" results inst w).2
  = logged w ++
    [(INFO, "Instance " +:+ name inst
            +:+ " already stopped/suspended, skipping")].
Proof.
  intros Hst. unfold process_instance, at_rest in *.
  by rewrite (bool_decide_eq_true_2 _ Hst).
Qed.

Lemma loop_logged_mono environ scheduler action instances results w m :
  m ∈ logged w →
  m ∈ logged
        (for_each (process_instance environ scheduler action) instances
           results w).2.
Proof.
  revert results w. induction instances as [|i instances IH];
    intros results w Hm; [done |].
  rewrite for_each_cons. apply IH.
  destruct (process_instance_logged environ scheduler action results i w)
    as [ms ->].
  apply elem_of_app. by left.
Qed.

Lemma loop_skip_logged environ scheduler instances results w i :
  i ∈ instances → status i ∈ at_rest →
  (INFO, "Instance " +:+ name i +:+ " already stopped/suspended, skipping")
  ∈ logged
      (for_each (process_instance environ scheduler "scale_down") instances
         results w).2.
Proof.
  intros Hi Hst. revert results w.
  induction Hi as [i instances | i j instances _ IH]; intros results w.
  - rewrite for_each_cons. apply loop_logged_mono.
    rewrite process_instance_skip_logged by done.
    apply elem_of_app. right. apply list_elem_of_here.
  - rewrite for_each_cons. by apply IH.
Qed.

(** Whichever direction the action has, passing over an instance logs the
    record of it and nothing else. *)
Lemma process_instance_skip_record environ scheduler action results inst w :
  skipped action (status inst) = true →
  logged (process_instance environ scheduler action results inst w).2
  = logged w ++ [skip_record action (name inst)].
Proof.
  intros Hs. unfold skip_record, process_instance.
  unfold skipped, at_rest in Hs.
  destruct (bool_decide (action = "scale_down")) eqn:Hd.
  - apply bool_decide_eq_true_1 in Hd as ->.
    rewrite (bool_decide_eq_false_2 ("scale_down" = "scale_up")) in Hs
      by done.
    simpl in Hs. rewrite orb_false_r in Hs. by rewrite Hs.
  - simpl in Hs. simpl. by rewrite Hs.
Qed.

Lemma loop_all_skipped_logged environ scheduler action instances results w :
  Forall (λ i, skipped action (status i) = true) instances →
  logged
    (for_each (process_instance environ scheduler action) instances results
       w).2
  = logged w ++ ((λ i, skip_record action (name i)) <$> instances).
Proof.
  intros Hall. revert results w.
  induction Hall as [|i instances Hi _ IH]; intros results w.
  - simpl. by rewrite app_nil_r.
  - rewrite for_each_cons, IH, process_instance_skip_record by done.
    by rewrite fmap_cons, <- app_assoc.
Qed.

End Logging.

(** ** Whole runs *)

(** C1 (as stated, refuted): in the scenario of the running instance [a]
    and the stopped instance [b], both are discovered, and the result of the
    scale-down holds the entry of [a] alone: [b] is passed over with
    [continue] and no entry is recorded for it. *)
Lemma scale_down_scenario_omits_skipped_instance :
  let w := fresh Fixtures.two_instances in
  (discover Fixtures.environ None None None w).1
    = [Instance "a" "z1" "RUNNING"; Instance "b" "z1" "STOPPED"]
  ∧ (process_scale_action Fixtures.environ "scale_down" None None None w).1
    = Summary 1 [Entry "a" "z1" "scale_down" (Success "op-a")] None
  ∧ ¬ ∃ e, e ∈ results_of
             (process_scale_action Fixtures.environ "scale_down" None None
                None w).1
           ∧ e_instance e = "b".
Proof.
  split; [reflexivity |]. split; [reflexivity |].
  intros (e & He & Hb).
  change (e ∈ [Entry "a" "z1" "scale_down" (Success "op-a")]) in He.
  apply list_elem_of_singleton in He. subst e. discriminate Hb.
Qed.

(** C2 (as stated, refuted): a selector text without any [key:value] item
    resolves to the empty selector; discovery then matches both labelled
    instances of the fleet, and the scale-down stops the running one. *)
Lemma empty_selector_matches_labelled_instances :
  let w := fresh Fixtures.two_instances in
  let r := process_scale_action Fixtures.environ_no_selector "scale_down"
             None None None w in
  resolve_labels Fixtures.environ_no_selector None = []
  ∧ (discover Fixtures.environ_no_selector None None None w).1
    = [Instance "a" "z1" "RUNNING"; Instance "b" "z1" "STOPPED"]
  ∧ r.1 = Summary 1 [Entry "a" "z1" "scale_down" (Success "op-a")] None
  ∧ invocations r.2 = [Invoked STOP (Some "demo") "z1" "a" (Returned "op-a")]
  ∧ r.1 ≠ Summary 0 [] (Some "No instances found").
Proof.
  cbv zeta. split; [reflexivity |]. split; [reflexivity |].
  split; [reflexivity |]. split; [reflexivity |].
  change (Summary 1 [Entry "a" "z1" "scale_down" (Success "op-a")] None
          ≠ Summary 0 [] (Some "No instances found")).
  discriminate.
Qed.

Section Runs.

Context {C : Type} `{InstancesClient C}.

Implicit Types (w : world C) (environ : gmap string string)
  (project : option string) (vm_labels : option (list label))
  (zones : option (list string)).

Lemma discover_invocations environ project vm_labels zones w :
  invocations (discover environ project vm_labels zones w).2
  = invocations w.
Proof. apply get_instances_by_labels_invocations. Qed.

Lemma same_calls_same_invocations (w1 w2 : world C) :
  calls w1 = calls w2 → invocations w1 = invocations w2.
Proof. unfold invocations. by intros ->. Qed.

Lemma skipped_scale_down_filter (instances : list instance) :
  List.filter (λ i, negb (skipped "scale_down" (status i))) instances
  = List.filter (λ i, negb (bool_decide (status i ∈ at_rest))) instances.
Proof.
  apply List.filter_ext. intros i. by rewrite skipped_scale_down.
Qed.

(** C1 (amended): in a scale-down run, an instance in state STOPPED,
    TERMINATED or SUSPENDED is passed over: the pass is logged, and the
    results hold an entry for exactly the other discovered instances, in
    discovery order, which [processed] counts.  For the discovered fleet of
    a running [a] and a stopped [b] whose operation on [a] returns [o], the
    result is [{'processed': 1, 'results': [entry of a with success o]}]. *)
Theorem skipped_instances_are_left_out environ project vm_labels zones w :
  Py.truthy (resolve_project environ project) = true →
  let d := discover environ project vm_labels zones w in
  let r :=
    process_scale_action environ "scale_down" project vm_labels zones w in
  let acted :=
    List.filter (λ i, negb (bool_decide (status i ∈ at_rest))) d.1 in
  (λ e, (e_instance e, e_zone e)) <$> results_of r.1
    = (λ i, (name i, zone i)) <$> acted
  ∧ processed_of r.1 = Some (length acted)
  ∧ (∀ i, i ∈ d.1 → status i ∈ at_rest →
       (INFO,
        "Instance " +:+ name i +:+ " already stopped/suspended, skipping")
       ∈ logged r.2)
  ∧ (∀ za zb o,
       d.1 = [Instance "a" za "RUNNING"; Instance "b" zb "STOPPED"] →
       (client_op (scale_down_operation environ) (client d.2)
          (resolve_project environ project) za "a").1 = Returned o →
       r.1 = Summary 1 [Entry "a" za "scale_down" (Success o)] None).
Proof.
  intros Hp d r acted.
  pose proof (process_scale_action_run environ "scale_down" project
                vm_labels zones w Hp) as Hrun.
  cbv zeta in Hrun. fold d in Hrun. fold r in Hrun.
  set (scheduler :=
         VMScheduler_init environ (resolve_project environ project))
    in Hrun.
  assert (Hproj : project_id scheduler
                  = resolve_project environ project).
  { unfold project_id, scheduler, VMScheduler_init, Py.or. simpl.
    by rewrite Hp. }
  pose proof (loop_entries environ scheduler "scale_down" d.1 [] d.2)
    as Hent.
  cbv zeta in Hent. rewrite skipped_scale_down_filter in Hent.
  fold acted in Hent. simpl in Hent.
  destruct d.1 as [|i0 instances] eqn:Hd.
  - rewrite Hrun. repeat split; try done.
    intros i Hi. by apply elem_of_nil in Hi.
  - rewrite Hrun. cbn [fst snd results_of processed_of].
    split; [exact Hent |]. split.
    { f_equal. apply (f_equal length) in Hent.
      by rewrite !length_fmap in Hent. }
    split.
    { intros i Hi Hst. by apply loop_skip_logged. }
    intros za zb o Hfleet Ho. injection Hfleet as -> ->.
    rewrite !for_each_cons. simpl for_each. rewrite run_ret.
    cbn [fst snd].
    set (a := Instance "a" za "RUNNING").
    destruct (process_instance_perform environ scheduler "scale_down" [] a
                d.2 (or_introl eq_refl) eq_refl) as (E1 & _).
    rewrite E1, Hproj.
    change (configured_operation environ "scale_down")
      with (scale_down_operation environ).
    subst a. cbn [name zone]. rewrite Ho. reflexivity.
Qed.

End Runs.

(** The scenario of the running [a] and the stopped [b]. *)
Lemma skipped_instances_are_left_out_witness :
  (process_scale_action Fixtures.environ "scale_down" None None None
     (fresh Fixtures.two_instances)).1
  = Summary 1 [Entry "a" "z1" "scale_down" (Success "op-a")] None.
Proof.
  destruct (skipped_instances_are_left_out Fixtures.environ None None None
              (fresh Fixtures.two_instances) eq_refl) as (_ & _ & _ & Hfleet).
  apply (Hfleet "z1" "z1" "op-a"); reflexivity.
Defined.

Section RunClaims.

Context {C : Type} `{InstancesClient C}.

Implicit Types (w : world C) (environ : gmap string string)
  (project : option string) (vm_labels : option (list label))
  (zones : option (list string)).

Lemma contribution_nil (x : exchange) : contribution [] x = labelled x.
Proof.
  destruct x as [p z r |]; [| done].
  unfold contribution, matching, labelled. f_equal.
  apply List.filter_ext. intros i. apply matches_labels_nil.
Qed.

(** C2 (amended): when the request resolves to the empty selector (and a
    project is configured), discovery lists every zone and finds exactly the
    listed instances that carry at least one label; instances without labels
    are never found.  When it finds none, the run calls no instance operation
    and returns [{'processed': 0, 'results': [], 'message': 'No instances
    found'}]. *)
Theorem empty_selector_run environ action project vm_labels zones w :
  Py.truthy (resolve_project environ project) = true →
  resolve_labels environ vm_labels = [] →
  let d := discover environ project vm_labels zones w in
  let r := process_scale_action environ action project vm_labels zones w in
  (∃ xs,
     calls d.2 = calls w ++ xs
     ∧ listed_zone <$> xs = Some <$> resolve_zones environ zones
     ∧ d.1 = xs ≫= labelled)
  ∧ (d.1 = [] →
     r.1 = Summary 0 [] (Some "No instances found")
     ∧ calls r.2 = calls d.2
     ∧ invocations r.2 = invocations w).
Proof.
  intros Hp Hsel d r. split.
  - destruct (get_instances_by_labels_spec
                (VMScheduler_init environ (resolve_project environ project))
                (resolve_zones environ zones)
                (resolve_labels environ vm_labels) w) as (xs & E1 & E2 & E3).
    exists xs. split; [exact E1 |]. split; [exact E2 |].
    unfold d, discover. rewrite E3, Hsel.
    apply list_bind_ext; [apply contribution_nil | done].
  - intros Hd.
    pose proof (process_scale_action_run environ action project vm_labels
                  zones w Hp) as Hrun.
    cbv zeta in Hrun. fold d in Hrun. fold r in Hrun. rewrite Hd in Hrun.
    rewrite Hrun. split; [done |]. split; [done |].
    rewrite <- (discover_invocations environ project vm_labels zones w).
    by apply same_calls_same_invocations.
Qed.

(** C5 (amended): a run against a fleet that is already where the action
    wants it, every discovered instance at rest under scale_down or every
    one RUNNING under scale_up, calls no instance operation and reports
    [processed == 0] with empty results: no outcome is recorded for an
    instance that is passed over, the pass is only logged. *)
Theorem stabilized_fleet_is_untouched environ action project vm_labels zones
    w :
  Py.truthy (resolve_project environ project) = true →
  let d := discover environ project vm_labels zones w in
  action = "scale_down" ∧ Forall (λ i, status i ∈ at_rest) d.1
  ∨ action = "scale_up" ∧ Forall (λ i, status i = "RUNNING") d.1 →
  let r := process_scale_action environ action project vm_labels zones w in
  processed_of r.1 = Some 0
  ∧ results_of r.1 = []
  ∧ (∀ i, i ∈ d.1 → skip_record action (name i) ∈ logged r.2)
  ∧ invocations r.2 = invocations w
  ∧ calls r.2 = calls d.2
  ∧ client r.2 = client d.2.
Proof.
  intros Hp d Hfleet r.
  assert (Hall : Forall (λ i, skipped action (status i) = true) d.1).
  { destruct Hfleet as [[-> Hall] | [-> Hall]];
      eapply Forall_impl; try exact Hall; intros i Hi; simpl in Hi.
    - rewrite skipped_scale_down. by apply bool_decide_eq_true_2.
    - rewrite skipped_scale_up. by apply bool_decide_eq_true_2. }
  pose proof (process_scale_action_run environ action project vm_labels
                zones w Hp) as Hrun.
  cbv zeta in Hrun. fold d in Hrun. fold r in Hrun.
  assert (Hres : processed_of r.1 = Some 0 ∧ results_of r.1 = []
                 ∧ (∀ i, i ∈ d.1 → skip_record action (name i) ∈ logged r.2)
                 ∧ calls r.2 = calls d.2 ∧ client r.2 = client d.2).
  { destruct d.1 as [|i0 instances] eqn:Hd; rewrite Hrun.
    - repeat split; try done. intros i Hi. by apply elem_of_nil in Hi.
    - destruct (loop_all_skipped environ
                  (VMScheduler_init environ (resolve_project environ project))
                  action (i0 :: instances) [] d.2 Hall) as (E1 & E2 & E3).
      cbn [fst snd processed_of results_of]. rewrite E1, E2, E3.
      repeat split; try done. intros i Hi.
      rewrite loop_all_skipped_logged by done.
      apply elem_of_app. right.
      apply list_elem_of_fmap. by exists i. }
  destruct Hres as (R1 & R2 & R3 & R4 & R5).
  split; [done |]. split; [done |]. split; [done |].
  split; [| done].
  rewrite <- (discover_invocations environ project vm_labels zones w).
  by apply same_calls_same_invocations.
Qed.

(** C6: with an action that is neither scale_up nor scale_down and a
    non-empty discovery, the run returns normally: every discovered
    instance, whatever its state, gets an error entry with the message
    [Unknown action: <action>], [processed] counts them all, and the world
    is left as discovery left it, without any instance operation. *)
Theorem unknown_action_run environ action project vm_labels zones w :
  Py.truthy (resolve_project environ project) = true →
  action ≠ "scale_up" → action ≠ "scale_down" →
  let d := discover environ project vm_labels zones w in
  d.1 ≠ [] →
  let r := process_scale_action environ action project vm_labels zones w in
  r.1 = Summary (length d.1)
          ((λ i, Entry (name i) (zone i) action
                   (Error ("Unknown action: " +:+ action))) <$> d.1)
          None
  ∧ r.2 = d.2
  ∧ invocations r.2 = invocations w.
Proof.
  intros Hp Hu Hd d Hne r.
  pose proof (process_scale_action_run environ action project vm_labels
                zones w Hp) as Hrun.
  cbv zeta in Hrun. fold d in Hrun. fold r in Hrun.
  assert (Hr : r = (Summary (length d.1)
                      ((λ i, Entry (name i) (zone i) action
                          (Error ("Unknown action: " +:+ action))) <$> d.1)
                      None, d.2)).
  { destruct d.1 as [|i0 instances] eqn:Hd1; [done |].
    rewrite Hrun, loop_unknown by done. cbn [fst snd app].
    by rewrite length_fmap. }
  rewrite Hr. split; [done |]. split; [done |].
  apply discover_invocations.
Qed.

End RunClaims.

(** A selector text without items: both labelled instances are found. *)
Lemma empty_selector_run_witness :
  let w := fresh Fixtures.two_instances in
  (discover Fixtures.environ_no_selector None None None w).1
  = [Instance "a" "z1" "RUNNING"; Instance "b" "z1" "STOPPED"].
Proof.
  destruct (empty_selector_run Fixtures.environ_no_selector "scale_down" None
              None None (fresh Fixtures.two_instances) eq_refl eq_refl)
    as [(xs & Hcalls & _ & Hd) _].
  assert (Hxs : xs = [Listed (Some "demo") "z1"
                        (Iteration
                           [CpInstance "a" Fixtures.scheduled "RUNNING";
                            CpInstance "b" Fixtures.scheduled "STOPPED"]
                           None)])
    by exact (eq_sym Hcalls).
  cbv zeta. rewrite Hd, Hxs. reflexivity.
Defined.

(** C5 (as stated, refuted): a scale-down against the fleet at rest
    discovers three instances and records an outcome for none of them, so
    that no discovered instance has an outcome of status SKIPPED. *)
Lemma stabilized_fleet_records_no_outcome :
  let w := fresh Fixtures.stabilized in
  let d := discover Fixtures.environ None None None w in
  let r := process_scale_action Fixtures.environ "scale_down" None None None
             w in
  d.1 = [Instance "b" "z1" "STOPPED"; Instance "c" "z1" "TERMINATED";
         Instance "d" "z1" "SUSPENDED"]
  ∧ r.1 = Summary 0 [] None
  ∧ ¬ (∀ i, i ∈ d.1 →
         ∃ e, e ∈ results_of r.1
              ∧ e_instance e = name i
              ∧ result_status (e_result e) = "SKIPPED").
Proof.
  cbv zeta. split; [reflexivity |]. split; [reflexivity |].
  intros Hall.
  destruct (Hall (Instance "b" "z1" "STOPPED")) as (e & He & _).
  - change (Instance "b" "z1" "STOPPED"
            ∈ [Instance "b" "z1" "STOPPED"; Instance "c" "z1" "TERMINATED";
               Instance "d" "z1" "SUSPENDED"]).
    apply list_elem_of_here.
  - change (e ∈ []) in He. by apply elem_of_nil in He.
Qed.

(** A scale-down against the fleet at rest. *)
Lemma stabilized_fleet_is_untouched_witness :
  let r := process_scale_action Fixtures.environ "scale_down" None None None
             (fresh Fixtures.stabilized) in
  processed_of r.1 = Some 0
  ∧ results_of r.1 = []
  ∧ invocations r.2 = [].
Proof.
  destruct (stabilized_fleet_is_untouched Fixtures.environ "scale_down" None
              None None (fresh Fixtures.stabilized) eq_refl)
    as (Hp & Hr & _ & Hi & _).
  - left. split; [reflexivity |].
    change (Forall (λ i, status i ∈ at_rest)
              [Instance "b" "z1" "STOPPED"; Instance "c" "z1" "TERMINATED";
               Instance "d" "z1" "SUSPENDED"]).
    repeat constructor.
  - split; [exact Hp |]. split; [exact Hr | exact Hi].
Defined.

(** The action [restart] against the two-instance fleet. *)
Lemma unknown_action_run_witness :
  (process_scale_action Fixtures.environ "restart" None None None
     (fresh Fixtures.two_instances)).1
  = Summary 2
      [Entry "a" "z1" "restart" (Error "Unknown action: restart");
       Entry "b" "z1" "restart" (Error "Unknown action: restart")]
      None.
Proof.
  destruct (unknown_action_run Fixtures.environ "restart" None None None
              (fresh Fixtures.two_instances) eq_refl)
    as (Hr & _); [discriminate | discriminate | discriminate |].
  exact Hr.
Defined.

Section Isolation.

Context {C : Type} `{InstancesClient C}.

Implicit Types (w : world C) (environ : gmap string string)
  (project : option string) (vm_labels : option (list label))
  (zones : option (list string)).

Lemma VMScheduler_init_project environ project :
  Py.truthy project = true →
  project_id (VMScheduler_init environ project) = project.
Proof. intros Hp. unfold VMScheduler_init, Py.or. simpl. by rewrite Hp. Qed.

(** C8: in a scale-down or scale-up run whose discovered instances all need
    the action, the loop calls the configured operation once per instance,
    in discovery order, and records one entry per instance that carries the
    outcome of that instance's own call: success with the operation name
    when the call returned, error with the failure text when it raised.  A
    call that raises for one instance neither ends the loop nor changes the
    entry of any other instance. *)
Theorem instance_failure_is_isolated environ action project vm_labels zones
    w :
  Py.truthy (resolve_project environ project) = true →
  action = "scale_down" ∨ action = "scale_up" →
  let d := discover environ project vm_labels zones w in
  Forall (λ i, skipped action (status i) = false) d.1 →
  let r := process_scale_action environ action project vm_labels zones w in
  ∃ replies : list (reply string),
    length replies = length d.1
    ∧ calls r.2 =
        calls d.2 ++
        zip_with (λ i rp, Invoked (configured_operation environ action)
                            (resolve_project environ project) (zone i)
                            (name i) rp)
          d.1 replies
    ∧ results_of r.1 =
        zip_with (λ i rp, Entry (name i) (zone i) action (outcome rp))
          d.1 replies
    ∧ processed_of r.1 = Some (length d.1)
    ∧ ∀ k i e,
        d.1 !! k = Some i → replies !! k = Some (Raised e) →
        results_of r.1 !! k
        = Some (Entry (name i) (zone i) action (Error e)).
Proof.
  intros Hp Ha d Hall r.
  pose proof (process_scale_action_run environ action project vm_labels
                zones w Hp) as Hrun.
  cbv zeta in Hrun. fold d in Hrun. fold r in Hrun.
  assert (Hmain : ∃ replies : list (reply string),
    length replies = length d.1
    ∧ calls r.2 =
        calls d.2 ++
        zip_with (λ i rp, Invoked (configured_operation environ action)
                            (resolve_project environ project) (zone i)
                            (name i) rp)
          d.1 replies
    ∧ results_of r.1 =
        zip_with (λ i rp, Entry (name i) (zone i) action (outcome rp))
          d.1 replies
    ∧ processed_of r.1 = Some (length d.1)).
  { destruct (loop_all_acting environ
                (VMScheduler_init environ (resolve_project environ project))
                action d.1 [] d.2 Ha Hall) as (replies & L & E1 & E2).
    rewrite VMScheduler_init_project in E1 by done.
    exists replies. split; [exact L |].
    destruct d.1 as [|i0 instances] eqn:Hd; rewrite Hrun.
    - destruct replies; [| done]. simpl. by rewrite app_nil_r.
    - cbn [fst snd results_of processed_of].
      split; [exact E1 |]. split; [exact E2 |].
      rewrite E2. cbn [app]. by rewrite length_zip_with, L, Nat.min_id. }
  destruct Hmain as (replies & L & E1 & E2 & E3).
  exists replies. repeat (split; [done |]).
  intros k i e Hi Hk. rewrite E2, lookup_zip_with, Hi. simpl.
  by rewrite Hk.
Qed.

(** C9: when neither the request nor [GCP_PROJECT] gives a project (each is
    absent or empty), the run returns [{'error': 'Project ID not
    configured'}] after logging it; the client is never called, so no
    listing takes place. *)
Theorem missing_project_is_reported environ action project vm_labels zones w :
  Py.truthy project = false →
  Py.truthy (environ !! "GCP_PROJECT") = false →
  let r := process_scale_action environ action project vm_labels zones w in
  r = (Failure "Project ID not configured",
       World (client w) (calls w)
         (logged w ++ [(ERROR, "Project ID not configured")]))
  ∧ calls r.2 = calls w.
Proof.
  intros Hreq Henv r.
  assert (Hr : r = (Failure "Project ID not configured",
                    World (client w) (calls w)
                      (logged w ++ [(ERROR, "Project ID not configured")]))).
  { assert (Hres : Py.truthy (resolve_project environ project) = false).
    { unfold resolve_project. by rewrite Hreq. }
    unfold r, process_scale_action. by rewrite Hres. }
  by rewrite Hr.
Qed.

(** C10: every result that is not the configuration error has [processed]
    equal to the number of its results, and its results are the entries of
    the discovered instances the loop did not pass over, one each and in
    order: an instance that is passed over adds neither an entry nor to the
    count. *)
Theorem processed_is_length_of_results environ action project vm_labels zones
    w :
  let d := discover environ project vm_labels zones w in
  let r := process_scale_action environ action project vm_labels zones w in
  match r.1 with
  | Failure _ => Py.truthy (resolve_project environ project) = false
  | Summary processed results _ =>
      processed = length results
      ∧ (λ e, (e_instance e, e_zone e)) <$> results
        = (λ i, (name i, zone i)) <$>
            List.filter (λ i, negb (skipped action (status i))) d.1
  end.
Proof.
  intros d r.
  destruct (Py.truthy (resolve_project environ project)) eqn:Hp.
  - pose proof (process_scale_action_run environ action project vm_labels
                  zones w Hp) as Hrun.
    cbv zeta in Hrun. fold d in Hrun. fold r in Hrun.
    pose proof (loop_entries environ
                  (VMScheduler_init environ (resolve_project environ project))
                  action d.1 [] d.2) as Hent.
    destruct d.1 as [|i0 instances] eqn:Hd; rewrite Hrun; [done |].
    cbn [fst]. split; [done |]. exact Hent.
  - unfold r, process_scale_action. by rewrite Hp.
Qed.

End Isolation.

(** A scale-down of three running instances, the second of which the
    control plane refuses to stop. *)
Lemma instance_failure_is_isolated_witness :
  results_of
    (process_scale_action Fixtures.environ "scale_down" None None None
       (fresh Fixtures.refusing_i2)).1
  = [Entry "i1" "z1" "scale_down" (Success "op-i1");
     Entry "i2" "z1" "scale_down" (Error "quota exceeded");
     Entry "i3" "z1" "scale_down" (Success "op-i3")].
Proof.
  destruct (instance_failure_is_isolated Fixtures.environ "scale_down" None
              None None (fresh Fixtures.refusing_i2) eq_refl
              (or_introl eq_refl))
    as (replies & _ & Hcalls & Hres & _).
  - change (Forall (λ i, skipped "scale_down" (status i) = false)
              [Instance "i1" "z1" "RUNNING"; Instance "i2" "z1" "RUNNING";
               Instance "i3" "z1" "RUNNING"]).
    repeat constructor.
  - reflexivity.
Defined.

(** A run without any project. *)
Lemma missing_project_is_reported_witness :
  (process_scale_action Fixtures.unconfigured "scale_down" None None None
     (fresh Fixtures.two_instances)).1
  = Failure "Project ID not configured".
Proof.
  destruct (missing_project_is_reported Fixtures.unconfigured "scale_down"
              None None None
              (fresh Fixtures.two_instances) eq_refl eq_refl) as [Hr _].
  by rewrite Hr.
Defined.

(** ** Further properties of the label matcher *)

Section MatcherAlgebra.

Implicit Types (L : gmap string string) (S : list label).

Lemma matches_labels_true L S :
  _matches_labels L S = true ↔ L ≠ ∅ ∧ all_present L S.
Proof.
  destruct (decide (L = ∅)) as [-> | HL].
  - rewrite matches_labels_empty. split; [done | by intros [? _]].
  - rewrite matches_labels_nonempty, labels_loop_true by done. tauto.
Qed.

Lemma labels_loop_app L S1 S2 :
  labels_loop L (S1 ++ S2) = labels_loop L S1 && labels_loop L S2.
Proof.
  induction S1 as [|l S1 IH]; [done |]. simpl.
  by destruct (bool_decide (L !! key l ≠ Some (value l))).
Qed.

(** X1: a selector put together from two parts is satisfied exactly when
    both parts are: matching is a conjunction over the selector. *)
Theorem matches_labels_app L S1 S2 :
  _matches_labels L (S1 ++ S2) = _matches_labels L S1 && _matches_labels L S2.
Proof.
  destruct (decide (L = ∅)) as [-> | HL].
  - by rewrite !matches_labels_empty.
  - rewrite !matches_labels_nonempty by done. apply labels_loop_app.
Qed.

(** X2: the answer depends on the set of pairs of the selector only, not on
    their order nor on repetitions. *)
Theorem matches_labels_same_pairs L S1 S2 :
  (∀ l, l ∈ S1 ↔ l ∈ S2) →
  _matches_labels L S1 = _matches_labels L S2.
Proof.
  intros Hsame. apply Bool.eq_true_iff_eq.
  rewrite !matches_labels_true. unfold all_present.
  rewrite !Forall_forall. split; intros [HL Hall]; split; try done;
    intros l Hl; apply Hall, Hsame, Hl.
Qed.

(** X3: a selector that asks two different values of one key is satisfied
    by no instance. *)
Theorem conflicting_selector_never_matches L S (l1 l2 : label) :
  l1 ∈ S → l2 ∈ S → key l1 = key l2 → value l1 ≠ value l2 →
  _matches_labels L S = false.
Proof.
  intros H1 H2 Hk Hv. apply not_true_is_false. intros Hm.
  apply matches_labels_true in Hm as [_ Hall]. unfold all_present in Hall.
  rewrite Forall_forall in Hall.
  pose proof (Hall l1 H1) as E1. pose proof (Hall l2 H2) as E2.
  rewrite Hk, E2 in E1. by injection E1 as E1.
Qed.

(** X4: labels added to an instance never unmatch it: when a mapping
    satisfies a selector, so does every mapping that extends it. *)
Theorem matches_labels_mono L L' S :
  L ⊆ L' → _matches_labels L S = true → _matches_labels L' S = true.
Proof.
  intros Hsub Hm. apply matches_labels_true in Hm as [HL Hall].
  apply matches_labels_true. split.
  - apply map_choose in HL as (k & v & Hkv). intros ->.
    apply (lookup_weaken _ ∅) in Hkv; [| done]. by rewrite lookup_empty in Hkv.
  - eapply Forall_impl; [exact Hall |]. intros l Hl. simpl in Hl.
    by eapply lookup_weaken.
Qed.

End MatcherAlgebra.

(** Two selectors with the same pairs, in another order and repeated. *)
Lemma matches_labels_same_pairs_witness :
  _matches_labels Fixtures.scheduled
    [Label "auto-schedule" "true"; Label "env" "prod"]
  = _matches_labels Fixtures.scheduled
      [Label "env" "prod"; Label "auto-schedule" "true"; Label "env" "prod"].
Proof.
  apply (matches_labels_same_pairs Fixtures.scheduled).
  intros l. rewrite !elem_of_cons, !elem_of_nil. tauto.
Defined.

(** The selector [env=prod, env=test]. *)
Lemma conflicting_selector_never_matches_witness :
  _matches_labels {[ "env" := "prod" ]} [Label "env" "prod"; Label "env" "test"]
  = false.
Proof.
  apply (conflicting_selector_never_matches _ _
           (Label "env" "prod") (Label "env" "test")).
  - apply list_elem_of_here.
  - apply list_elem_of_further, list_elem_of_here.
  - reflexivity.
  - discriminate.
Defined.

(** The scheduling label, and the same instance with one more label. *)
Lemma matches_labels_mono_witness :
  _matches_labels (<[ "env" := "prod" ]> Fixtures.scheduled) Fixtures.selector
  = true.
Proof.
  apply (matches_labels_mono Fixtures.scheduled).
  - apply insert_subseteq. reflexivity.
  - reflexivity.
Defined.

(** ** Further properties of discovery *)

Section DiscoveryOrder.

Context {C : Type} `{InstancesClient C}.

Implicit Types (self : VMScheduler) (w : world C) (labels : list label).

Lemma list_zone_full self labels instances z w :
  let call := client_list (client w) (project_id self) z in
  list_zone self labels instances z w =
  (instances ++ found labels z call.1,
   World call.2 (calls w ++ [Listed (project_id self) z call.1])
     (logged w ++ listing_errors z call.1)).
Proof.
  unfold list_zone. rewrite run_bind. unfold call_list, found, listing_errors.
  destruct (client_list (client w) (project_id self) z)
    as [[listing [e |]] c]; simpl; rewrite append_matching_spec;
    by rewrite ?app_nil_r.
Qed.

Lemma zone_loop_full self labels zones instances w :
  let r := for_each (list_zone self labels) zones instances w in
  ∃ replies,
    length replies = length zones
    ∧ calls r.2 = calls w ++ zip_with (Listed (project_id self)) zones replies
    ∧ r.1 = instances ++ concat (zip_with (found labels) zones replies)
    ∧ logged r.2 = logged w ++ concat (zip_with listing_errors zones replies).
Proof.
  revert instances w. induction zones as [|z zones IH]; intros instances w.
  - exists []. simpl. by rewrite !app_nil_r.
  - cbv zeta. rewrite for_each_cons, list_zone_full. cbn [fst snd].
    match goal with
    | |- context [for_each _ zones ?acc ?w'] =>
        destruct (IH acc w') as (replies & L & E1 & E2 & E3)
    end.
    exists ((client_list (client w) (project_id self) z).1 :: replies).
    rewrite E1, E2, E3. simpl. rewrite L, <- !app_assoc. done.
Qed.

Lemma listed_zone_zip p (zones : list string) (replies : list iteration) :
  length replies = length zones →
  listed_zone <$> zip_with (Listed p) zones replies = Some <$> zones.
Proof.
  revert replies. induction zones as [|z zones IH]; intros replies L;
    [done |].
  destruct replies as [|rp replies]; [done |]. simpl in L.
  cbn [zip_with]. rewrite !fmap_cons. f_equal. apply IH. lia.
Qed.

Lemma elem_of_matching_inv z labels listing (inst : instance) :
  inst ∈ matching z labels listing →
  ∃ i, i ∈ listing
       ∧ _matches_labels (cp_labels i) labels = true
       ∧ inst = Instance (cp_name i) z (cp_status i).
Proof.
  unfold matching. intros Hin. apply list_elem_of_fmap in Hin as (i & -> & Hi).
  apply list_elem_of_In, List.filter_In in Hi as [Hi Hm].
  exists i. by rewrite list_elem_of_In.
Qed.

Lemma elem_of_found labels p zones replies (inst : instance) :
  inst ∈ concat (zip_with (found labels) zones replies) →
  ∃ rp,
    Listed p (zone inst) rp ∈ zip_with (Listed p) zones replies
    ∧ zone inst ∈ zones
    ∧ inst ∈ matching (zone inst) labels (yielded rp).
Proof.
  revert replies. induction zones as [|z zones IH]; intros replies Hin.
  - by apply elem_of_nil in Hin.
  - destruct replies as [|rp replies]; [by apply elem_of_nil in Hin |].
    simpl in Hin. apply elem_of_app in Hin as [Hin | Hin].
    + unfold found in Hin.
      destruct (elem_of_matching_inv _ _ _ _ Hin) as (i & _ & _ & Hinst).
      assert (Hz : zone inst = z) by (by rewrite Hinst).
      exists rp. rewrite Hz. repeat split; try done; apply list_elem_of_here.
    + destruct (IH replies Hin) as (rp' & H1 & H2 & H3).
      exists rp'. repeat split; try done; by apply list_elem_of_further.
Qed.

(** X5: discovery lists every zone exactly once and in the order given,
    with the scheduler's project, whether or not earlier listings raised,
    and calls nothing else.  The instances it returns are, zone after zone,
    the matching instances each listing yielded, in the order it yielded
    them, those yielded before a failure included; the log gains one error
    record per listing that raised. *)
Theorem discovery_lists_each_zone_once self zones labels w :
  let r := get_instances_by_labels self zones labels w in
  ∃ replies,
    length replies = length zones
    ∧ calls r.2 = calls w ++ zip_with (Listed (project_id self)) zones replies
    ∧ r.1 = concat (zip_with (found labels) zones replies)
    ∧ logged r.2 = logged w ++ concat (zip_with listing_errors zones replies).
Proof. apply (zone_loop_full self labels zones [] w). Qed.

Lemma discovered_sound self zones labels w :
  let r := get_instances_by_labels self zones labels w in
  ∃ xs,
    calls r.2 = calls w ++ xs
    ∧ listed_zone <$> xs = Some <$> zones
    ∧ Forall
        (λ inst,
           ∃ rp i,
             Listed (project_id self) (zone inst) rp ∈ xs
             ∧ zone inst ∈ zones
             ∧ i ∈ yielded rp
             ∧ inst = Instance (cp_name i) (zone inst) (cp_status i)
             ∧ cp_labels i ≠ ∅
             ∧ all_present (cp_labels i) labels)
        r.1.
Proof.
  intros r. subst r. unfold get_instances_by_labels.
  destruct (zone_loop_full self labels zones [] w)
    as (replies & L & E1 & E2 & _).
  simpl in E2.
  exists (zip_with (Listed (project_id self)) zones replies).
  split; [exact E1 |]. split; [by apply listed_zone_zip |]. rewrite E2. apply Forall_forall. intros inst Hin.
  destruct (elem_of_found labels (project_id self) zones replies inst Hin)
    as (rp & H1 & H2 & H3).
  destruct (elem_of_matching_inv _ _ _ _ H3) as (i & Hi & Hm & Hinst).
  apply matches_labels_true in Hm as [HL Hall].
  exists rp, i. repeat split; done.
Qed.

(** X6: the calls of a discovery are its listings, one per zone, and every
    discovered instance was yielded by one of them, whether or not that
    listing went on to fail, for the zone the
    instance is recorded with; that zone is one of the zones asked for; name
    and state are copied from the listing; and the instance carries at least
    one label and every pair of the selector. *)
Theorem discovered_instances_are_listed_and_labelled self zones labels w :
  let r := get_instances_by_labels self zones labels w in
  ∃ xs,
    calls r.2 = calls w ++ xs
    ∧ listed_zone <$> xs = Some <$> zones
    ∧ Forall
        (λ inst,
           ∃ rp i,
             Listed (project_id self) (zone inst) rp ∈ xs
             ∧ zone inst ∈ zones
             ∧ i ∈ yielded rp
             ∧ inst = Instance (cp_name i) (zone inst) (cp_status i)
             ∧ cp_labels i ≠ ∅
             ∧ all_present (cp_labels i) labels)
        r.1.
Proof. apply discovered_sound. Qed.

End DiscoveryOrder.

(** ** Further properties of the instance operations and of the loop *)

Section Operations.

Context {C : Type} `{InstancesClient C}.

Implicit Types (scheduler : VMScheduler) (w : world C)
  (environ : gmap string string) (results : list entry)
  (instances : list instance).

(** Under a known action the loop calls the configured operation once for
    each instance it does not pass over. *)
Lemma loop_known environ scheduler action instances results w :
  action = "scale_down" ∨ action = "scale_up" →
  let r :=
    for_each (process_instance environ scheduler action) instances results w in
  ∃ replies : list (reply string),
    length replies = length (acted_on action instances)
    ∧ calls r.2 =
        calls w ++
        zip_with (λ i rp, Invoked (configured_operation environ action)
                            (project_id scheduler) (zone i) (name i) rp)
          (acted_on action instances) replies
    ∧ r.1 = results
            ++ zip_with (entry_for action) (acted_on action instances) replies.
Proof.
  intros Ha. revert results w.
  induction instances as [|i instances IH]; intros results w.
  - exists []. simpl. by rewrite !app_nil_r.
  - cbv zeta. rewrite for_each_cons.
    destruct (IH (process_instance environ scheduler action results i w).1
                 (process_instance environ scheduler action results i w).2)
      as (replies & L & F1 & F2).
    unfold acted_on in *. simpl.
    destruct (skipped action (status i)) eqn:Hs; simpl.
    + destruct (process_instance_skip environ scheduler action results i w Hs)
        as (E1 & E2 & _).
      exists replies. by rewrite F1, F2, E1, E2.
    + destruct (process_instance_perform environ scheduler action results i w
                  Ha Hs) as (E1 & E2 & _).
      eexists (_ :: replies). split; [| split].
      * simpl. by rewrite L.
      * rewrite F1, E2, <- app_assoc. reflexivity.
      * rewrite F2, E1, <- app_assoc. reflexivity.
Qed.

Lemma filter_invocations_zip op p (instances : list instance)
    (replies : list (reply string)) :
  List.filter is_invocation
    (zip_with (λ i rp, Invoked op p (zone i) (name i) rp) instances replies)
  = zip_with (λ i rp, Invoked op p (zone i) (name i) rp) instances replies.
Proof.
  revert replies. induction instances as [|i instances IH]; intros replies;
    [done |].
  destruct replies as [|rp replies]; [done |]. simpl. by rewrite IH.
Qed.

(** What a run with a project adds to the calls after discovery: under a
    known action one invocation per instance acted on, otherwise nothing. *)
Lemma run_after_discovery environ action project vm_labels zones w :
  Py.truthy (resolve_project environ project) = true →
  let d := discover environ project vm_labels zones w in
  let r := process_scale_action environ action project vm_labels zones w in
  ∃ replies : list (reply string),
    calls r.2 =
      calls d.2 ++
      zip_with (λ i rp, Invoked (configured_operation environ action)
                          (resolve_project environ project) (zone i) (name i)
                          rp)
        (acted_on action d.1) replies
    ∧ (action = "scale_down" ∨ action = "scale_up"
       → length replies = length (acted_on action d.1)
         ∧ results_of r.1 = zip_with (entry_for action)
                              (acted_on action d.1) replies)
    ∧ (¬ (action = "scale_down" ∨ action = "scale_up") → replies = []).
Proof.
  intros Hp d r.
  pose proof (process_scale_action_run environ action project vm_labels
                zones w Hp) as Hrun.
  cbv zeta in Hrun. fold d in Hrun. fold r in Hrun.
  destruct (decide (action = "scale_down" ∨ action = "scale_up"))
    as [Ha | Hn].
  - destruct (loop_known environ
                (VMScheduler_init environ (resolve_project environ project))
                action d.1 [] d.2 Ha) as (replies & L & E1 & E2).
    rewrite VMScheduler_init_project in E1 by done.
    exists replies.
    destruct d.1 as [|i0 instances] eqn:Hd; rewrite Hrun.
    + destruct replies; [| done]. simpl. rewrite app_nil_r.
      split; [done |]. split; [done | tauto].
    + cbn [fst snd results_of]. split; [exact E1 |]. split; [| tauto].
      intros _. split; [exact L | exact E2].
  - exists []. rewrite zip_with_nil_r, app_nil_r.
    split; [| split; [tauto | done]].
    destruct d.1 as [|i0 instances] eqn:Hd; rewrite Hrun; [done |].
    rewrite loop_unknown by tauto. done.
Qed.

End Operations.

Section RunShape.

Context {C : Type} `{InstancesClient C}.

Implicit Types (w : world C) (environ : gmap string string)
  (project : option string) (vm_labels : option (list label))
  (zones : option (list string)).

Lemma split_nonempty sep s : Py.split sep s ≠ [].
Proof.
  destruct s as [|c s]; simpl; [done |].
  destruct (Ascii.eqb c sep); [done |]. by destruct (Py.split sep s).
Qed.

Lemma resolve_zones_nonempty environ zones : resolve_zones environ zones ≠ [].
Proof.
  assert (Hfallback :
    Py.strip <$> Py.split "," (environ_get environ "VM_ZONES"
                                 "us-central1-a,us-central1-b") ≠ []).
  { intros Hnil. apply fmap_nil_inv in Hnil. by apply split_nonempty in Hnil. }
  unfold resolve_zones. by destruct zones as [[|z zs] |].
Qed.

Lemma configured_operation_scale_down environ :
  configured_operation environ "scale_down" ∈ [STOP; SUSPEND].
Proof.
  unfold configured_operation, scale_down_operation. simpl.
  case_bool_decide; [apply list_elem_of_further |]; apply list_elem_of_here.
Qed.

Lemma configured_operation_scale_up environ :
  configured_operation environ "scale_up" ∈ [START; RESUME].
Proof.
  unfold configured_operation, scale_up_operation. simpl.
  case_bool_decide; [apply list_elem_of_further |]; apply list_elem_of_here.
Qed.

(** X8: in a scale-down or scale-up run over any fleet, the loop calls the
    configured operation exactly once for each discovered instance it does
    not pass over, in discovery order and for the resolved project, and
    never for an instance it passes over; the results are the entries built
    from the replies to these calls, and [processed] is their number. *)
Theorem run_acts_once_per_instance environ action project vm_labels zones w :
  Py.truthy (resolve_project environ project) = true →
  action = "scale_down" ∨ action = "scale_up" →
  let d := discover environ project vm_labels zones w in
  let r := process_scale_action environ action project vm_labels zones w in
  ∃ replies : list (reply string),
    length replies = length (acted_on action d.1)
    ∧ calls r.2 =
        calls d.2 ++
        zip_with (λ i rp, Invoked (configured_operation environ action)
                            (resolve_project environ project) (zone i)
                            (name i) rp)
          (acted_on action d.1) replies
    ∧ results_of r.1 = zip_with (entry_for action) (acted_on action d.1) replies
    ∧ processed_of r.1 = Some (length (acted_on action d.1)).
Proof.
  intros Hp Ha d r.
  destruct (run_after_discovery environ action project vm_labels zones w Hp)
    as (replies & E1 & E2 & _).
  destruct (E2 Ha) as [L E3]. fold d in L, E3. fold r in E3.
  exists replies. split; [exact L |]. split; [exact E1 |].
  split; [exact E3 |].
  pose proof (process_scale_action_run environ action project vm_labels
                zones w Hp) as Hrun.
  cbv zeta in Hrun. fold d in Hrun. fold r in Hrun.
  destruct d.1 as [|i0 instances] eqn:Hd.
  - by rewrite Hrun.
  - rewrite Hrun in E3 |- *. cbn [fst results_of processed_of] in E3 |- *.
    by rewrite E3, length_zip_with, L, Nat.min_id.
Qed.

Lemma run_invocations environ action project vm_labels zones w :
  let r := process_scale_action environ action project vm_labels zones w in
  ∃ new,
    invocations r.2 = invocations w ++ new
    ∧ Forall
        (λ x,
           action = "scale_down"
           ∧ invokes [STOP; SUSPEND] (resolve_project environ project) x
           ∨ action = "scale_up"
             ∧ invokes [START; RESUME] (resolve_project environ project) x)
        new
    ∧ (Py.truthy (resolve_project environ project) = false → new = [])
    ∧ (action ≠ "scale_down" → action ≠ "scale_up" → new = []).
Proof.
  intros r.
  destruct (Py.truthy (resolve_project environ project)) eqn:Hp.
  - destruct (run_after_discovery environ action project vm_labels zones w
                Hp) as (replies & E1 & _ & E3).
    fold r in E1.
    rewrite (invocations_app _ _ _ E1), discover_invocations,
      filter_invocations_zip.
    eexists. split; [reflexivity |].
    destruct (decide (action = "scale_down" ∨ action = "scale_up"))
      as [Ha | Hn].
    + split; [| split; [done | tauto]].
      apply Forall_forall. intros x Hx.
      apply elem_of_lookup_zip_with in Hx as (k & i & rp & -> & _ & _).
      destruct Ha as [-> | ->]; [left | right]; split; try done;
        eexists _, _, _, _; split; try reflexivity.
      * apply configured_operation_scale_down.
      * apply configured_operation_scale_up.
    + rewrite (E3 Hn), zip_with_nil_r. split; [constructor | done].
  - exists []. rewrite app_nil_r. split; [| split; [constructor | done]].
    apply same_calls_same_invocations.
    unfold r, process_scale_action. by rewrite Hp.
Qed.

(** X9: whatever the request, the instance operations a run adds to the
    calls are stops or suspends under scale_down and starts or resumes under
    scale_up, all for the resolved project; without a project, and under any
    other action, the run adds no instance operation at all. *)
Theorem run_invokes_only_what_the_action_allows environ action project
    vm_labels zones w :
  let r := process_scale_action environ action project vm_labels zones w in
  ∃ new,
    invocations r.2 = invocations w ++ new
    ∧ Forall
        (λ x,
           action = "scale_down"
           ∧ invokes [STOP; SUSPEND] (resolve_project environ project) x
           ∨ action = "scale_up"
             ∧ invokes [START; RESUME] (resolve_project environ project) x)
        new
    ∧ (Py.truthy (resolve_project environ project) = false → new = [])
    ∧ (action ≠ "scale_down" → action ≠ "scale_up" → new = []).
Proof. apply run_invocations. Qed.

(** X10: in a run with a project, the result carries the message [No
    instances found] exactly when discovery returned nothing, whatever the
    action, known or not; the result then counts nothing, a warning is
    logged, and the world is otherwise as discovery left it. *)
Theorem message_marks_empty_discovery environ action project vm_labels zones
    w :
  Py.truthy (resolve_project environ project) = true →
  let d := discover environ project vm_labels zones w in
  let r := process_scale_action environ action project vm_labels zones w in
  (d.1 = [] ↔ ∃ n rs m, r.1 = Summary n rs (Some m))
  ∧ (d.1 = [] →
     r = (Summary 0 [] (Some "No instances found"),
          World (client d.2) (calls d.2)
            (logged d.2 ++
             [(WARNING,
               "No instances found matching the specified labels")]))).
Proof.
  intros Hp d r.
  pose proof (process_scale_action_run environ action project vm_labels
                zones w Hp) as Hrun.
  cbv zeta in Hrun. fold d in Hrun. fold r in Hrun.
  destruct d.1 as [|i0 instances] eqn:Hd; rewrite Hrun.
  - split; [| done]. split; [| done]. intros _. by eexists _, _, _.
  - split; [| done]. split; [done |]. by intros (n & rs & m & Hr).
Qed.

(** X11: a run with a project lists each resolved zone exactly once, in
    order and for the resolved project, and there is always at least one
    zone to list; everything it calls afterwards is an instance operation,
    so that no zone is listed again once the loop has begun. *)
Theorem configured_run_lists_before_it_acts environ action project vm_labels
    zones w :
  Py.truthy (resolve_project environ project) = true →
  let r := process_scale_action environ action project vm_labels zones w in
  ∃ (replies : list iteration) (after : list exchange),
    length replies = length (resolve_zones environ zones)
    ∧ 0 < length replies
    ∧ calls r.2 =
        calls w
        ++ zip_with (Listed (resolve_project environ project))
             (resolve_zones environ zones) replies
        ++ after
    ∧ Forall (λ x, is_invocation x = true) after.
Proof.
  intros Hp r.
  destruct (run_after_discovery environ action project vm_labels zones w Hp)
    as (replies' & E1 & _).
  fold r in E1.
  destruct (zone_loop_full
              (VMScheduler_init environ (resolve_project environ project))
              (resolve_labels environ vm_labels)
              (resolve_zones environ zones) [] w)
    as (replies & L & F1 & _).
  rewrite VMScheduler_init_project in F1 by done.
  exists replies. eexists. split; [exact L |]. split.
  { rewrite L. pose proof (resolve_zones_nonempty environ zones).
    destruct (resolve_zones environ zones); [done | simpl; lia]. }
  split.
  { rewrite E1. unfold discover, get_instances_by_labels.
    rewrite F1, <- app_assoc. reflexivity. }
  apply Forall_forall. intros x Hx.
  by apply elem_of_lookup_zip_with in Hx as (k & i & rp & -> & _ & _).
Qed.

End RunShape.

(** The scale-down of the running [a] and the stopped [b]: one instance is
    acted on. *)
Lemma run_acts_once_per_instance_witness :
  processed_of
    (process_scale_action Fixtures.environ "scale_down" None None None
       (fresh Fixtures.two_instances)).1
  = Some 1.
Proof.
  destruct (run_acts_once_per_instance Fixtures.environ "scale_down" None
              None None (fresh Fixtures.two_instances) eq_refl
              (or_introl eq_refl)) as (replies & _ & _ & _ & Hp).
  exact Hp.
Defined.

(** A run over a zone that lists nothing, with an action that is not known. *)
Lemma message_marks_empty_discovery_witness :
  (process_scale_action Fixtures.environ "restart" None None (Some ["z9"])
     (fresh Fixtures.two_instances)).1
  = Summary 0 [] (Some "No instances found").
Proof.
  destruct (message_marks_empty_discovery Fixtures.environ "restart" None
              None (Some ["z9"]) (fresh Fixtures.two_instances) eq_refl)
    as [_ Hr].
  by rewrite (Hr eq_refl).
Defined.

(** The calls of the scale-down of the two-instance fleet. *)
Lemma configured_run_lists_before_it_acts_witness :
  ∃ (replies : list iteration) (after : list exchange),
    length replies = 1
    ∧ 0 < length replies
    ∧ calls (process_scale_action Fixtures.environ "scale_down" None None
               None (fresh Fixtures.two_instances)).2
      = zip_with (Listed (Some "demo")) ["z1"] replies ++ after
    ∧ Forall (λ x, is_invocation x = true) after.
Proof.
  exact (configured_run_lists_before_it_acts Fixtures.environ "scale_down"
           None None None (fresh Fixtures.two_instances) eq_refl).
Defined.

(** ** The entry point *)

Section EntryPoint.

Context {C : Type} `{InstancesClient C}.

Implicit Types (w : world C) (environ : gmap string string).

(** The world in which [vm_scheduler] starts processing: the records of the
    intake are logged, nothing is called. *)
Lemma vm_scheduler_run environ render decoded w :
  let m := received decoded in
  let action := default "scale_down" (m_action m) in
  let intake :=
    match decoded with
    | Returned _ => []
    | Raised e => [(ERROR, "Error decoding message: " +:+ e)]
    end ++ [(INFO, "Processing action: " +:+ action)] in
  let p :=
    process_scale_action environ action (m_project_id m) (m_vm_labels m)
      (m_zones m) (World (client w) (calls w) (logged w ++ intake)) in
  vm_scheduler environ render decoded w
  = (p.1, World (client p.2) (calls p.2)
            (logged p.2 ++ [(INFO, "Action completed: " +:+ render p.1)])).
Proof.
  unfold vm_scheduler. rewrite run_bind.
  destruct decoded as [data | e]; simpl; rewrite !run_bind; simpl;
    rewrite <- ?app_assoc; reflexivity.
Qed.

(** X12: a message without an action, and so every message that cannot be
    decoded, is handled as a scale-down: the result and the calls are those
    of [process_scale_action] with action [scale_down] on the fields of the
    message (none of them when decoding failed), and every instance
    operation invoked is a stop or a suspend. *)
Theorem message_without_action_scales_down environ render decoded w :
  m_action (received decoded) = None →
  let m := received decoded in
  let r := vm_scheduler environ render decoded w in
  ∃ w1 new,
    client w1 = client w ∧ calls w1 = calls w
    ∧ r.1 = (process_scale_action environ "scale_down" (m_project_id m)
               (m_vm_labels m) (m_zones m) w1).1
    ∧ calls r.2 = calls (process_scale_action environ "scale_down"
                           (m_project_id m) (m_vm_labels m) (m_zones m) w1).2
    ∧ invocations r.2 = invocations w ++ new
    ∧ Forall (invokes [STOP; SUSPEND]
                (resolve_project environ (m_project_id m))) new.
Proof.
  intros Hact m r. subst r. rewrite vm_scheduler_run. cbv zeta.
  rewrite Hact. fold m. simpl default.
  match goal with
  | |- context [process_scale_action _ _ _ _ _ ?w'] => set (w1 := w')
  end.
  destruct (run_invocations environ "scale_down"
              (m_project_id m) (m_vm_labels m) (m_zones m) w1)
    as (new & E1 & E2 & _).
  exists w1, new. do 4 (split; [done |]). split.
  - exact E1.
  - eapply Forall_impl; [exact E2 |]. intros x [[_ Hx] | [Hu _]]; done.
Qed.

End EntryPoint.

(** A message that is not valid base64. *)
Lemma message_without_action_scales_down_witness :
  ∃ (w1 : world script) (new : list exchange),
    client w1 = Fixtures.two_instances ∧ calls w1 = []
    ∧ (vm_scheduler Fixtures.environ (λ _, "") (Raised "Incorrect padding")
         (fresh Fixtures.two_instances)).1
      = (process_scale_action Fixtures.environ "scale_down" None None None
           w1).1
    ∧ calls (vm_scheduler Fixtures.environ (λ _, "")
               (Raised "Incorrect padding") (fresh Fixtures.two_instances)).2
      = calls (process_scale_action Fixtures.environ "scale_down" None None
                 None w1).2
    ∧ invocations (vm_scheduler Fixtures.environ (λ _, "")
                     (Raised "Incorrect padding")
                     (fresh Fixtures.two_instances)).2
      = new
    ∧ Forall (invokes [STOP; SUSPEND] (Some "demo")) new.
Proof.
  exact (message_without_action_scales_down Fixtures.environ (λ _, "")
           (Raised "Incorrect padding") (fresh Fixtures.two_instances)
           eq_refl).
Defined.

(** ** The selector text of the environment *)

Section Parsing.

Implicit Types (s : string) (c sep : ascii).

Lemma contains_app c s1 s2 :
  Py.contains c (s1 +:+ s2) = Py.contains c s1 || Py.contains c s2.
Proof.
  induction s1 as [|d s1 IH]; simpl; [done |].
  by destruct (Ascii.eqb d c).
Qed.

Lemma split_app_sep sep s1 s2 :
  Py.split sep (s1 +:+ String sep s2) = Py.split sep s1 ++ Py.split sep s2.
Proof.
  induction s1 as [|d s1 IH]; simpl.
  - by rewrite Ascii.eqb_refl.
  - destruct (Ascii.eqb d sep); [by rewrite IH |]. rewrite IH.
    pose proof (split_nonempty sep s1) as Hne.
    by destruct (Py.split sep s1).
Qed.

Lemma split_without_sep sep s :
  Py.contains sep s = false → Py.split sep s = [s].
Proof.
  induction s as [|d s IH]; simpl; [done |].
  destruct (Ascii.eqb d sep); [done |]. intros Hs. by rewrite IH.
Qed.

Lemma split_pieces sep s :
  Forall (λ p, Py.contains sep p = false) (Py.split sep s).
Proof.
  induction s as [|d s IH]; simpl; [by repeat constructor |].
  destruct (Ascii.eqb d sep) eqn:Hd; [by constructor |].
  destruct (Py.split sep s) as [|p ps]; [repeat constructor; simpl |].
  - by rewrite Hd.
  - inversion IH as [|? ? Hp Hps]; subst. constructor; [| done].
    simpl. by rewrite Hd.
Qed.

Lemma split1_app sep k v :
  Py.contains sep k = false → Py.split1 sep (k +:+ String sep v) = (k, v).
Proof.
  induction k as [|d k IH]; simpl.
  - by rewrite Ascii.eqb_refl.
  - destruct (Ascii.eqb d sep); [done |]. intros Hk. by rewrite IH.
Qed.

Lemma split1_first sep s : Py.contains sep (Py.split1 sep s).1 = false.
Proof.
  induction s as [|d s IH]; simpl; [done |].
  destruct (Ascii.eqb d sep) eqn:Hd; [done |].
  destruct (Py.split1 sep s) as [a b]. simpl in *. by rewrite Hd.
Qed.

Lemma split1_parts c sep s :
  Py.contains c s = false →
  Py.contains c (Py.split1 sep s).1 = false
  ∧ Py.contains c (Py.split1 sep s).2 = false.
Proof.
  induction s as [|d s IH]; simpl; [done |].
  destruct (Ascii.eqb d c) eqn:Hd; [done |]. intros Hs.
  destruct (Ascii.eqb d sep); [done |].
  destruct (IH Hs) as [Ha Hb]. destruct (Py.split1 sep s) as [a b].
  simpl in *. by rewrite Hd.
Qed.

Lemma lstrip_contains c s :
  Py.contains c s = false → Py.contains c (Py.lstrip s) = false.
Proof.
  induction s as [|d s IH]; simpl; [done |].
  destruct (Ascii.eqb d c) eqn:Hd; [done |]. intros Hs.
  destruct (Py.isspace d); [by apply IH |]. simpl. by rewrite Hd.
Qed.

Lemma rstrip_contains c s :
  Py.contains c s = false → Py.contains c (Py.rstrip s) = false.
Proof.
  induction s as [|d s IH]; simpl; [done |].
  destruct (Ascii.eqb d c) eqn:Hd; [done |]. intros Hs.
  specialize (IH Hs). destruct (Py.rstrip s) as [|e r].
  - destruct (Py.isspace d); simpl; [done | by rewrite Hd].
  - simpl in *. by rewrite Hd.
Qed.

Lemma strip_contains c s :
  Py.contains c s = false → Py.contains c (Py.strip s) = false.
Proof. intros Hs. by apply rstrip_contains, lstrip_contains. Qed.

Lemma rstrip_rstrip s : Py.rstrip (Py.rstrip s) = Py.rstrip s.
Proof.
  induction s as [|d s IH]; simpl; [done |].
  destruct (Py.rstrip s) as [|e r] eqn:Hr.
  - destruct (Py.isspace d) eqn:Hd; simpl; [done | by rewrite Hd].
  - change (Py.rstrip (String d (String e r)))
      with (match Py.rstrip (String e r) with
            | EmptyString =>
                if Py.isspace d then EmptyString else String d EmptyString
            | r' => String d r'
            end).
    by rewrite IH.
Qed.

Lemma lstrip_rstrip_lstrip s :
  Py.lstrip (Py.rstrip (Py.lstrip s)) = Py.rstrip (Py.lstrip s).
Proof.
  induction s as [|d s IH]; simpl; [done |].
  destruct (Py.isspace d) eqn:Hd.
  - exact IH.
  - simpl. destruct (Py.rstrip s); rewrite ?Hd; simpl; by rewrite Hd.
Qed.

Lemma strip_strip s : Py.strip (Py.strip s) = Py.strip s.
Proof.
  unfold Py.strip. by rewrite lstrip_rstrip_lstrip, rstrip_rstrip.
Qed.

(** The parse is the concatenation of what each comma-separated item
    stands for. *)
Lemma parse_labels_bind s : parse_labels s = Py.split "," s ≫= parse_item.
Proof.
  unfold parse_labels.
  assert (Hfold : ∀ items acc,
    fold_left
      (λ vm_labels l,
         if Py.contains ":" l
         then let '(k, v) := Py.split1 ":" l in
              vm_labels ++ [Label (Py.strip k) (Py.strip v)]
         else vm_labels)
      items acc
    = acc ++ (items ≫= parse_item)).
  { induction items as [|l items IH]; intros acc; simpl.
    - by rewrite app_nil_r.
    - rewrite IH. unfold parse_item at 2.
      destruct (Py.contains ":" l); [| done].
      destruct (Py.split1 ":" l) as [k v]. by rewrite <- app_assoc. }
  apply (Hfold _ []).
Qed.

Lemma parse_labels_comma s1 s2 :
  parse_labels (s1 +:+ "," +:+ s2) = parse_labels s1 ++ parse_labels s2.
Proof.
  rewrite !parse_labels_bind.
  change ("," +:+ s2) with (String "," s2).
  by rewrite split_app_sep, bind_app.
Qed.

(** X13: the parse of two selector texts joined by a comma is the parse of
    the first followed by the parse of the second. *)
Theorem parse_labels_app s1 s2 :
  parse_labels (s1 +:+ "," +:+ s2) = parse_labels s1 ++ parse_labels s2.
Proof. apply parse_labels_comma. Qed.

Lemma parse_labels_one (l : label) :
  clean_label l → parse_labels (key l +:+ ":" +:+ value l) = [l].
Proof.
  intros [(Hk1 & Hk2 & Hk3) (Hv1 & Hv2)]. rewrite parse_labels_bind.
  change (":" +:+ value l) with (String ":" (value l)).
  rewrite split_without_sep.
  2:{ rewrite contains_app, Hk1. simpl. exact Hv1. }
  simpl. unfold parse_item. rewrite contains_app. simpl.
  rewrite orb_true_r, split1_app, app_nil_r by done.
  rewrite Hk3, Hv2. by destruct l.
Qed.

(** X14: a selector written as [key1:value1,key2:value2] is read back as
    it was written, as long as no key or value holds a comma or starts or
    ends with white space and no key holds a colon. *)
Theorem parse_labels_render (ls : list label) :
  Forall clean_label ls → parse_labels (render_labels ls) = ls.
Proof.
  unfold render_labels. induction 1 as [|l ls Hl Hls IH]; [done |].
  destruct ls as [|l' ls].
  - simpl. by apply parse_labels_one.
  - change (join "," ((λ l, key l +:+ ":" +:+ value l) <$> l :: l' :: ls))
      with ((key l +:+ ":" +:+ value l) +:+ "," +:+
            join "," ((λ l, key l +:+ ":" +:+ value l) <$> l' :: ls)).
    by rewrite parse_labels_comma, IH, parse_labels_one.
Qed.

(** X15: whatever the text, a parsed key holds neither comma nor colon, a
    parsed value holds no comma, and neither starts or ends with white
    space. *)
Theorem parse_labels_clean s : Forall clean_label (parse_labels s).
Proof.
  rewrite parse_labels_bind. apply Forall_forall. intros l Hl.
  apply list_elem_of_bind in Hl as (item & Hl & Hitem).
  pose proof (split_pieces "," s) as Hpieces.
  rewrite Forall_forall in Hpieces. specialize (Hpieces item Hitem).
  unfold parse_item in Hl. destruct (Py.contains ":" item); [| by inversion Hl].
  pose proof (split1_first ":" item) as Hcolon.
  destruct (split1_parts "," ":" item Hpieces) as [Hk Hv].
  destruct (Py.split1 ":" item) as [k v]. simpl in *.
  apply list_elem_of_singleton in Hl as ->.
  repeat split; simpl; auto using strip_contains, strip_strip.
Qed.

End Parsing.

(** The selector [env=prod, team=a:b]. *)
Lemma parse_labels_render_witness :
  parse_labels (render_labels [Label "env" "prod"; Label "team" "a:b"])
  = [Label "env" "prod"; Label "team" "a:b"].
Proof.
  apply parse_labels_render. repeat constructor.
Defined.

(** ** Request and environment *)

Section Resolution.

Context {C : Type} `{InstancesClient C}.

Implicit Types (w : world C) (environ : gmap string string).

Lemma for_each_ext {A B} (body1 body2 : B → A → M C B) l acc w :
  (∀ acc x w, body1 acc x w = body2 acc x w) →
  for_each body1 l acc w = for_each body2 l acc w.
Proof.
  intros Hext. revert acc w. induction l as [|x l IH]; intros acc w; [done |].
  by rewrite !for_each_cons, Hext, IH.
Qed.

Lemma process_instance_environ environ environ' scheduler action results inst
    w :
  environ !! "SCALE_DOWN_ACTION" = environ' !! "SCALE_DOWN_ACTION" →
  environ !! "SCALE_UP_ACTION" = environ' !! "SCALE_UP_ACTION" →
  process_instance environ scheduler action results inst w
  = process_instance environ' scheduler action results inst w.
Proof.
  intros Hd Hu. unfold process_instance, environ_get. by rewrite Hd, Hu.
Qed.

Lemma truthy_nonempty (p : string) : p ≠ "" → Py.truthy (Some p) = true.
Proof.
  intros Hp. simpl. destruct (String.eqb_spec p ""); [contradiction | done].
Qed.

(** X16: a request that names a project, a selector and zones of its own
    overrides the environment: [GCP_PROJECT], [VM_LABELS] and [VM_ZONES] are
    not consulted, and two environments that agree on the configured
    operations give the same run. *)
Theorem request_overrides_environment environ environ' action (p : string)
    (l : label) (ls : list label) (z : string) (zs : list string) w :
  p ≠ "" →
  environ !! "SCALE_DOWN_ACTION" = environ' !! "SCALE_DOWN_ACTION" →
  environ !! "SCALE_UP_ACTION" = environ' !! "SCALE_UP_ACTION" →
  process_scale_action environ action (Some p) (Some (l :: ls))
    (Some (z :: zs)) w
  = process_scale_action environ' action (Some p) (Some (l :: ls))
      (Some (z :: zs)) w.
Proof.
  intros Hp Hd Hu. apply truthy_nonempty in Hp.
  assert (Hres : ∀ e, resolve_project e (Some p) = Some p).
  { intros e. unfold resolve_project. by rewrite Hp. }
  assert (Hinit : ∀ e, VMScheduler_init e (Some p)
                       = {| project_id := Some p |}).
  { intros e. unfold VMScheduler_init, Py.or. by rewrite Hp. }
  unfold process_scale_action. rewrite !Hres, Hp, !Hinit.
  change (negb true) with false. cbv iota.
  unfold resolve_labels, resolve_zones. rewrite !run_bind.
  destruct (get_instances_by_labels _ _ _ w).1 as [|i instances]; [done |].
  rewrite !run_bind.
  by rewrite (for_each_ext (process_instance environ _ action)
                (process_instance environ' _ action) _ _ _
                (λ acc x w', process_instance_environ environ environ' _ _
                               acc x w' Hd Hu)).
Qed.

(** X17: the zones taken from [VM_ZONES], or from its default, are never
    an empty list, even for an empty text; each is free of commas and of
    white space at its ends.  An empty list of zones in the request is
    replaced by them like a missing one. *)
Theorem environment_zones_are_separated environ :
  resolve_zones environ (Some []) = resolve_zones environ None
  ∧ resolve_zones environ None ≠ []
  ∧ Forall (λ z, Py.contains "," z = false ∧ Py.strip z = z)
      (resolve_zones environ None).
Proof.
  split; [done |]. split; [apply resolve_zones_nonempty |].
  unfold resolve_zones. apply Forall_fmap.
  eapply Forall_impl; [apply (split_pieces ",") |].
  intros z Hz. simpl. split; [by apply strip_contains | apply strip_strip].
Qed.

End Resolution.

(** The environment of the fixtures against an empty one. *)
Lemma request_overrides_environment_witness :
  process_scale_action Fixtures.environ "scale_down" (Some "other")
    (Some Fixtures.selector) (Some ["z1"]) (fresh Fixtures.two_instances)
  = process_scale_action Fixtures.unconfigured "scale_down" (Some "other")
      (Some Fixtures.selector) (Some ["z1"]) (fresh Fixtures.two_instances).
Proof.
  apply (request_overrides_environment Fixtures.environ Fixtures.unconfigured
           "scale_down" "other" (Label "auto-schedule" "true") [] "z1" []);
    [discriminate | reflexivity | reflexivity].
Defined.

Section Selection.

Context {C : Type} `{InstancesClient C}.

Implicit Types (w : world C) (environ : gmap string string)
  (project : option string) (vm_labels : option (list label))
  (zones : option (list string)).

(** X18: a run with a project invokes instance operations only for
    instances it selected.  Its calls are the listings of the resolved
    zones, one per zone, followed by all its instance operations; each of
    these names a zone and an instance that one of these listings yielded
    for that zone, for the same project, with at least one label, with every
    pair of the resolved selector, and in a state the action does not pass
    over. *)
Theorem run_acts_only_on_selected_instances environ action project vm_labels
    zones w :
  Py.truthy (resolve_project environ project) = true →
  let r := process_scale_action environ action project vm_labels zones w in
  ∃ listings after : list exchange,
    calls r.2 = calls w ++ listings ++ after
    ∧ listed_zone <$> listings = Some <$> resolve_zones environ zones
    ∧ invocations r.2 = invocations w ++ after
    ∧ Forall
        (λ x,
           ∃ op z n rp listing i,
             x = Invoked op (resolve_project environ project) z n rp
             ∧ Listed (resolve_project environ project) z listing ∈ listings
             ∧ i ∈ yielded listing
             ∧ cp_name i = n
             ∧ cp_labels i ≠ ∅
             ∧ all_present (cp_labels i) (resolve_labels environ vm_labels)
             ∧ skipped action (cp_status i) = false)
        after.
Proof.
  intros Hp r.
  destruct (run_after_discovery environ action project vm_labels zones w Hp)
    as (replies & E1 & _).
  fold r in E1.
  destruct (discovered_sound
              (VMScheduler_init environ (resolve_project environ project))
              (resolve_zones environ zones)
              (resolve_labels environ vm_labels) w) as (xs & F1 & F0 & F2).
  rewrite VMScheduler_init_project in F2 by done.
  exists xs. eexists. split.
  { rewrite E1. unfold discover. rewrite F1, <- app_assoc. reflexivity. }
  split; [exact F0 |]. split.
  { rewrite (invocations_app _ _ _ E1), discover_invocations,
      filter_invocations_zip. reflexivity. }
  apply Forall_forall. intros x Hx.
  apply elem_of_lookup_zip_with in Hx as (k & inst & rp & -> & Hk & _).
  apply list_elem_of_lookup_2 in Hk.
  apply list_elem_of_In, List.filter_In in Hk as [Hin Hs].
  apply list_elem_of_In in Hin. rewrite Forall_forall in F2.
  destruct (F2 inst Hin) as (listing & i & G1 & _ & G2 & G3 & G4 & G5).
  exists (configured_operation environ action), (zone inst), (name inst), rp,
    listing, i.
  repeat split; try done.
  - by rewrite G3.
  - apply negb_true_iff in Hs. by rewrite G3 in Hs.
Qed.

End Selection.

(** The scale-down of the two-instance fleet: the one stop names the
    listed, labelled, running [a]. *)
Lemma run_acts_only_on_selected_instances_witness :
  ∃ listings after : list exchange,
    calls (process_scale_action Fixtures.environ "scale_down" None None None
             (fresh Fixtures.two_instances)).2
    = listings ++ after
    ∧ listed_zone <$> listings = [Some "z1"]
    ∧ invocations (process_scale_action Fixtures.environ "scale_down" None
                     None None (fresh Fixtures.two_instances)).2
      = after
    ∧ Forall
        (λ x,
           ∃ op z n rp listing i,
             x = Invoked op (Some "demo") z n rp
             ∧ Listed (Some "demo") z listing ∈ listings
             ∧ i ∈ yielded listing
             ∧ cp_name i = n
             ∧ cp_labels i ≠ ∅
             ∧ all_present (cp_labels i) Fixtures.selector
             ∧ skipped "scale_down" (cp_status i) = false)
        after.
Proof.
  exact (run_acts_only_on_selected_instances Fixtures.environ "scale_down"
           None None None (fresh Fixtures.two_instances) eq_refl).
Defined.
